(** * Blog API: a shallow embedding of the auth and post controllers

  The development follows the two Express controllers of the server:
  the auth controller ([register], [login]) and the post controller
  ([getPosts], [getPost], [createPost], [updatePost], [deletePost],
  [addComment], [deleteComment], [likePost]).

  Collections are lists of documents in natural (insertion) order,
  document identifiers are natural numbers, and every handler is a
  function from the request and the database to the outcome of the
  request and the database afterwards. *)

From Stdlib Require Import List String Ascii ZArith Lia Bool Arith.
From Stdlib Require Import Permutation Sorted.
From Stdlib Require Import Decimal DecimalNat DecimalString.
Import ListNotations.

Open Scope string_scope.
Open Scope list_scope.
Open Scope nat_scope.

(** ** JavaScript primitives used by the controllers *)

Module JS.

(** Truthiness of an optional string value ([undefined] and the empty
    string are falsy). *)
Definition truthy (v : option string) : bool :=
  match v with
  | Some (String _ _) => true
  | _ => false
  end.

Definition is_space (c : ascii) : bool :=
  let n := nat_of_ascii c in
  (n =? 32) || ((9 <=? n) && (n <=? 13)).

Fixpoint skip_spaces (s : string) : string :=
  match s with
  | String c r => if is_space c then skip_spaces r else s
  | EmptyString => s
  end.

Definition digit (c : ascii) : option Z :=
  let n := nat_of_ascii c in
  if (48 <=? n) && (n <=? 57) then Some (Z.of_nat (n - 48)) else None.

(** Reads the longest prefix of decimal digits; [acc] is [None] as long
    as no digit was read. *)
Fixpoint read_digits (acc : option Z) (s : string) : option Z :=
  match s with
  | String c r =>
      match digit c with
      | Some d =>
          read_digits
            (Some (10 * match acc with Some a => a | None => 0 end + d)%Z) r
      | None => acc
      end
  | EmptyString => acc
  end.

(** [parseInt(v, 10)]; [None] stands for [NaN].  An absent parameter
    ([undefined]) gives [NaN].  Texts are ASCII, and the number read lies
    below 2^53 (beyond, JavaScript rounds it to a double). *)
Definition parseInt (v : option string) : option Z :=
  match v with
  | None => None
  | Some s =>
      match skip_spaces s with
      | String "-" r => option_map Z.opp (read_digits None r)
      | String "+" r => read_digits None r
      | t => read_digits None t
      end
  end.

(** [x || d] on numbers: [NaN] and [0] are falsy. *)
Definition or_default (x : option Z) (d : Z) : Z :=
  match x with
  | None => d
  | Some 0%Z => d
  | Some v => v
  end.

(** [Math.ceil(a / b)] for integers [a] and [b <> 0] (exact for counts
    below 2^53, where the floating-point quotient cannot cross an
    integer). *)
Definition ceil_div (a b : Z) : Z := (- ((- a) / b))%Z.

(** [arr.indexOf(x)]; [None] stands for [-1]. *)
Fixpoint indexOf (arr : list nat) (x : nat) : option nat :=
  match arr with
  | [] => None
  | y :: r => if y =? x then Some 0 else option_map S (indexOf r x)
  end.

(** [arr.splice(i, 1)]: removes the element at index [i]. *)
Fixpoint splice1 (i : nat) (arr : list nat) : list nat :=
  match arr, i with
  | [], _ => []
  | _ :: r, 0 => r
  | y :: r, S j => y :: splice1 j r
  end.

(** [arr.push(x)]. *)
Definition push {A : Type} (arr : list A) (x : A) : list A := arr ++ [x].

End JS.

(** ** The [$regex] operator of the database, with option [i]

  The pattern is a regular expression.  The embedding interprets the
  patterns made of ordinary characters and the wildcard [.]; every other
  pattern (one that uses another metacharacter) is handed to the engine
  of the environment.  Texts are ASCII: option [i] folds the case of the
  letters A to Z. *)

Module Regex.

Inductive atom : Type :=
| Lit (c : ascii)
| Dot.

Definition metachars : list ascii :=
  ["\"; "^"; "$"; "."; "|"; "?"; "*"; "+"; "("; ")"; "["; "]"; "{"; "}"]%char.

Definition is_meta (c : ascii) : bool :=
  existsb (Ascii.eqb c) metachars.

Fixpoint compile (pat : string) : option (list atom) :=
  match pat with
  | EmptyString => Some []
  | String c r =>
      match compile r with
      | None => None
      | Some atoms =>
          if Ascii.eqb c "." then Some (Dot :: atoms)
          else if is_meta c then None
          else Some (Lit c :: atoms)
      end
  end.

(** Case folding of the ASCII letters. *)
Definition fold_case (c : ascii) : ascii :=
  let n := nat_of_ascii c in
  if (65 <=? n) && (n <=? 90) then ascii_of_nat (n + 32) else c.

Definition newline : ascii := ascii_of_nat 10.

Definition atom_matches (a : atom) (c : ascii) : bool :=
  match a with
  | Lit x => Ascii.eqb (fold_case x) (fold_case c)
  | Dot => negb (Ascii.eqb c newline)
  end.

Fixpoint match_here (p : list atom) (s : string) : bool :=
  match p, s with
  | [], _ => true
  | a :: p', String c r => atom_matches a c && match_here p' r
  | _ :: _, EmptyString => false
  end.

(** An unanchored pattern matches when it matches at some position. *)
Fixpoint search (p : list atom) (s : string) : bool :=
  match_here p s ||
  match s with
  | String _ r => search p r
  | EmptyString => false
  end.

(** The matcher of a pattern; [None] when the pattern is rejected.
    [engine] is the database's engine for the patterns outside the
    fragment above. *)
Definition matcher (engine : string -> option (string -> bool))
           (pat : string) : option (string -> bool) :=
  match compile pat with
  | Some atoms => Some (search atoms)
  | None => engine pat
  end.

(** The pattern that matches a text literally. *)
Fixpoint literal (s : string) : list atom :=
  match s with
  | EmptyString => []
  | String c r => Lit c :: literal r
  end.

End Regex.

(** ** Plain text containment, as the specification words the search *)

Module Text.

Fixpoint lower (s : string) : string :=
  match s with
  | EmptyString => EmptyString
  | String c r => String (Regex.fold_case c) (lower r)
  end.

Fixpoint starts_with (p s : string) : bool :=
  match p, s with
  | EmptyString, _ => true
  | String a p', String c r => Ascii.eqb a c && starts_with p' r
  | String _ _, EmptyString => false
  end.

Fixpoint contains (p s : string) : bool :=
  starts_with p s ||
  match s with
  | String _ r => contains p r
  | EmptyString => false
  end.

(** [s] occurs in [t] as a substring, ignoring the case of letters. *)
Definition icontains (s t : string) : bool := contains (lower s) (lower t).

(** A string without any metacharacter of regular expressions. *)
Fixpoint plain (s : string) : bool :=
  match s with
  | EmptyString => true
  | String c r => negb (Regex.is_meta c) && plain r
  end.

End Text.

(** ** What a handler does with a request *)

(** [new ErrorResponse(message, statusCode)]. *)
Record ErrorResponse : Type := mkError {
  message : string;
  statusCode : nat
}.

(** A handler either answers with [res.status(code).json(body)], or hands
    an [ErrorResponse] to [next], or an exception raised under it (by the
    database) is forwarded by [asyncHandler]. *)
Inductive outcome (A : Type) : Type :=
| Json (status : nat) (body : A)
| Next (err : ErrorResponse)
| Thrown (reason : string).

Arguments Json {A} status body.
Arguments Next {A} err.
Arguments Thrown {A} reason.

(** The error classes of the specification, as the controllers build
    them. *)
Definition AuthError : ErrorResponse := mkError "Invalid credentials" 401.
Definition ConflictError : ErrorResponse := mkError "User already exists" 400.
Definition PostNotFound : ErrorResponse := mkError "Post not found" 404.
Definition CategoryNotFound : ErrorResponse := mkError "Category not found" 404.
Definition CommentNotFound : ErrorResponse := mkError "Comment not found" 404.
Definition ValidationError (msg : string) : ErrorResponse := mkError msg 400.
Definition Forbidden (action : string) : ErrorResponse :=
  mkError (String.append "Not authorized to " action) 403.

(** ** Documents *)

(** Modelled from the spec: the User schema (models/User is not part of the
    sources): identity, username, email, hashed password, role. *)
Record User : Type := mkUser {
  u_id : nat;
  username : string;
  email : string;
  password : string;
  role : string
}.

Record Category : Type := mkCategory {
  cat_id : nat;
  name : string;
  slug : string
}.

Record Comment : Type := mkComment {
  c_id : nat;
  c_author : nat;
  c_content : string
}.

(** Modelled from the spec: the Post schema (models/Post is not part of the
    sources): the fields of the data model, and the creation time the
    listing sorts on. *)
Record Post : Type := mkPost {
  p_id : nat;
  title : string;
  content : string;
  excerpt : string;
  featuredImage : string;
  author : nat;
  category : nat;
  tags : list string;
  status : string;
  views : nat;
  comments : list Comment;
  likes : list nat;
  createdAt : nat
}.

Definition set_views (v : nat) (p : Post) : Post :=
  mkPost (p_id p) (title p) (content p) (excerpt p) (featuredImage p)
         (author p) (category p) (tags p) (status p) v (comments p)
         (likes p) (createdAt p).

Definition set_comments (cs : list Comment) (p : Post) : Post :=
  mkPost (p_id p) (title p) (content p) (excerpt p) (featuredImage p)
         (author p) (category p) (tags p) (status p) (views p) cs
         (likes p) (createdAt p).

Definition set_likes (ls : list nat) (p : Post) : Post :=
  mkPost (p_id p) (title p) (content p) (excerpt p) (featuredImage p)
         (author p) (category p) (tags p) (status p) (views p) (comments p)
         ls (createdAt p).

(** The database: three collections and the source of fresh identifiers. *)
Record Db : Type := mkDb {
  users : list User;
  categories : list Category;
  posts : list Post;
  next_oid : nat
}.

Definition with_users (us : list User) (n : nat) (db : Db) : Db :=
  mkDb us (categories db) (posts db) n.

Definition with_posts (ps : list Post) (db : Db) : Db :=
  mkDb (users db) (categories db) ps (next_oid db).

(** ** Request bodies and the environment *)

Record RegisterBody : Type := mkRegisterBody {
  r_username : string;
  r_email : string;
  r_password : string
}.

Record LoginBody : Type := mkLoginBody {
  l_email : string;
  l_password : string
}.

(** The body of a post request.  The controller reads nothing but the
    verdict of the validator from it and hands it whole to the model, so
    every member of a post the body names counts: besides the members the
    form sends (title, content, category, excerpt, tags, status, image)
    also author, views, comments, likes and creation time.  A body that
    names an identifier is outside the model: the database gives them. *)
Record PostBody : Type := mkBody {
  b_title : string;
  b_content : string;
  b_category : nat;
  b_excerpt : option string;
  b_tags : option (list string);
  b_status : option string;
  b_featuredImage : option string;
  b_author : option nat;
  b_views : option nat;
  b_comments : option (list Comment);
  b_likes : option (list nat);
  b_createdAt : option nat
}.

(** A body with the members the form sends and no other. *)
Definition mkPostBody (t c : string) (cat : nat) (e : option string)
           (tg : option (list string)) (st img : option string) : PostBody :=
  mkBody t c cat e tg st img None None None None None.

(** What the Post schema (models/Post is not part of the sources) gives a
    new post for the members its body leaves out. *)
Record PostDefaults : Type := mkDefaults {
  d_excerpt : string;
  d_featuredImage : string;
  d_tags : list string;
  d_status : string;
  d_views : nat;
  d_comments : list Comment;
  d_likes : list nat
}.

(** [req.user], injected by the authentication middleware. *)
Record Caller : Type := mkCaller {
  caller_id : nat;
  caller_role : string
}.

(** What the controllers import and do not define: the validators (each
    returns the message of the first violation, if any), the token signer
    behind [generateToken], the password hash of the User model with its
    [matchPassword], the regular-expression engine of the database, and
    the defaults of the Post schema. *)
Record Env : Type := mkEnv {
  validateRegister : RegisterBody -> option string;
  validateLogin : LoginBody -> option string;
  validatePost : PostBody -> option string;
  jwt_sign : nat -> string;
  hash_password : string -> string;
  matchPassword : string -> string -> bool;
  regex_engine : string -> option (string -> bool);
  schema_defaults : PostDefaults
}.

Definition generateToken (E : Env) (id : nat) : string := jwt_sign E id.

(** ** Collection primitives *)

Definition findOne {A : Type} (f : A -> bool) (coll : list A) : option A :=
  find f coll.

Definition findUserById (id : nat) (coll : list User) : option User :=
  findOne (fun u => u_id u =? id) coll.

Definition findCategoryById (id : nat) (coll : list Category) : option Category :=
  findOne (fun c => cat_id c =? id) coll.

Definition findById (id : nat) (coll : list Post) : option Post :=
  findOne (fun p => p_id p =? id) coll.

(** [doc.save()] of a post that was read by its identifier: the stored
    document with that identifier is replaced. *)
Fixpoint save (p : Post) (coll : list Post) : list Post :=
  match coll with
  | [] => []
  | q :: r => if p_id q =? p_id p then p :: r else q :: save p r
  end.

(** [doc.deleteOne()]. *)
Fixpoint deleteOne (id : nat) (coll : list Post) : list Post :=
  match coll with
  | [] => []
  | q :: r => if p_id q =? id then r else q :: deleteOne id r
  end.

(** ** The auth controller *)

(** The JSON bodies the auth controller writes as object literals. *)
#[warnings="-register-all"]
Inductive json : Type :=
| JNull
| JBool (b : bool)
| JNum (n : nat)
| JStr (s : string)
| JObj (fields : list (string * json)).

(** The keys that occur anywhere in a JSON value. *)
Fixpoint keys_of (j : json) : list string :=
  match j with
  | JObj fields =>
      (fix go (fs : list (string * json)) : list string :=
         match fs with
         | [] => []
         | (k, v) :: r => k :: keys_of v ++ go r
         end) fields
  | _ => []
  end.

(** The string values that occur anywhere in a JSON value. *)
Fixpoint strings_of (j : json) : list string :=
  match j with
  | JStr s => [s]
  | JObj fields =>
      (fix go (fs : list (string * json)) : list string :=
         match fs with
         | [] => []
         | (_, v) :: r => strings_of v ++ go r
         end) fields
  | _ => []
  end.

(** The body both [register] and [login] answer with on success. *)
Definition auth_body (token : string) (user : User) : json :=
  JObj [("success", JBool true);
        ("data", JObj [("token", JStr token);
                       ("user", JObj [("id", JNum (u_id user));
                                      ("username", JStr (username user));
                                      ("email", JStr (email user));
                                      ("role", JStr (role user))])])].

(** The keys of a success body of the auth controller. *)
Definition auth_keys : list string :=
  ["success"; "data"; "token"; "user"; "id"; "username"; "email"; "role"].

(** Modelled from the spec: what the User model (not part of the sources)
    does on [User.create({ username, email, password })]: it stores the
    hashed password and gives the new user the role [user]. *)
Definition User_create (E : Env) (body : RegisterBody) (db : Db) : User * Db :=
  let user := mkUser (next_oid db) (r_username body) (r_email body)
                     (hash_password E (r_password body)) "user" in
  (user, with_users (users db ++ [user]) (S (next_oid db)) db).

Definition register (E : Env) (body : RegisterBody) (db : Db)
  : outcome json * Db :=
  match validateRegister E body with
  | Some msg => (Next (mkError msg 400), db)
  | None =>
      let existingUser :=
        findOne (fun u => String.eqb (email u) (r_email body)
                          || String.eqb (username u) (r_username body))
                (users db) in
      match existingUser with
      | Some _ => (Next (mkError "User already exists" 400), db)
      | None =>
          let '(user, db') := User_create E body db in
          let token := generateToken E (u_id user) in
          (Json 201 (auth_body token user), db')
      end
  end.

Definition login (E : Env) (body : LoginBody) (db : Db) : outcome json * Db :=
  match validateLogin E body with
  | Some msg => (Next (mkError msg 400), db)
  | None =>
      match findOne (fun u => String.eqb (email u) (l_email body)) (users db) with
      | None => (Next (mkError "Invalid credentials" 401), db)
      | Some user =>
          if negb (matchPassword E (l_password body) (password user))
          then (Next (mkError "Invalid credentials" 401), db)
          else
            let token := generateToken E (u_id user) in
            (Json 200 (auth_body token user), db)
      end
  end.

(** ** The post controller *)

(** A populated reference: the identifier and the selected fields of the
    referenced document. *)
Record Ref : Type := mkRef {
  ref_id : nat;
  ref_fields : list (string * string)
}.

(** A reference field of a document in a response: left as the identifier,
    or populated ([None] when the referenced document does not exist). *)
Inductive link : Type :=
| Unpopulated (id : nat)
| Populated (r : option Ref).

Definition user_field (u : User) (f : string) : list (string * string) :=
  if String.eqb f "username" then [(f, username u)]
  else if String.eqb f "email" then [(f, email u)]
  else [].

Definition category_field (c : Category) (f : string) : list (string * string) :=
  if String.eqb f "name" then [(f, name c)]
  else if String.eqb f "slug" then [(f, slug c)]
  else [].

Definition populate_user (db : Db) (fields : list string) (id : nat) : link :=
  Populated
    (option_map (fun u => mkRef id (flat_map (user_field u) fields))
                (findUserById id (users db))).

Definition populate_category (db : Db) (fields : list string) (id : nat) : link :=
  Populated
    (option_map (fun c => mkRef id (flat_map (category_field c) fields))
                (findCategoryById id (categories db))).

(** A post as a response carries it. *)
Record PostView : Type := mkView {
  doc : Post;
  v_author : link;
  v_category : link;
  v_comment_authors : list link
}.

Definition view (db : Db) (author_fields : list string)
           (comment_fields : option (list string)) (p : Post) : PostView :=
  mkView p
         (populate_user db author_fields (author p))
         (populate_category db ["name"; "slug"] (category p))
         (map (fun c => match comment_fields with
                        | Some fs => populate_user db fs (c_author c)
                        | None => Unpopulated (c_author c)
                        end) (comments p)).

Record Pagination : Type := mkPagination {
  current : Z;
  total : Z;
  hasNext : bool;
  hasPrev : bool
}.

(** The [data] (and, for the listing, the other members) of a success
    envelope of the post controller. *)
Inductive payload : Type :=
| PList (count : nat) (total_docs : nat) (pagination : Pagination)
        (data : list PostView)
| PPost (data : PostView)
| PNull
| PEmpty
| PComments (data : list (Comment * link))
| PLike (n_likes : nat) (isLiked : bool).

(** [req.query] of the listing. *)
Record Query : Type := mkQuery {
  q_page : option string;
  q_limit : option string;
  q_search : option string;
  q_category : option nat;
  q_status : option string
}.

(** The filter object [getPosts] builds. *)
Record Filter : Type := mkFilter {
  f_regex : option string;
  f_category : option nat;
  f_status : string
}.

Definition build_query (q : Query) : Filter :=
  mkFilter
    (if JS.truthy (q_search q) then q_search q else None)
    (q_category q)
    (match q_status q with
     | Some s => if JS.truthy (q_status q) then s else "published"
     | None => "published"
     end).

(** The documents a filter selects; [None] when the database rejects the
    pattern of the filter. *)
Definition selects (E : Env) (f : Filter) : option (Post -> bool) :=
  let base (p : Post) : bool :=
    match f_category f with
    | Some c => category p =? c
    | None => true
    end && String.eqb (status p) (f_status f) in
  match f_regex f with
  | None => Some base
  | Some pat =>
      option_map
        (fun m (p : Post) => (m (title p) || m (content p)) && base p)
        (Regex.matcher (regex_engine E) pat)
  end.

Definition countDocuments (E : Env) (f : Filter) (coll : list Post)
  : option nat :=
  option_map (fun sel => List.length (filter sel coll)) (selects E f).

(** [sort({ createdAt: -1 })]: newest first.  The database promises no
    order among documents of the same creation time; here they stay in
    natural order. *)
Fixpoint insert_desc (p : Post) (l : list Post) : list Post :=
  match l with
  | [] => [p]
  | q :: r =>
      if createdAt p <? createdAt q then q :: insert_desc p r else p :: l
  end.

Definition sort_desc (l : list Post) : list Post :=
  fold_right insert_desc [] l.

(** [find(f).sort(..).limit(limit).skip(skip)]: the database skips, then
    limits; it rejects a negative skip, takes a negative limit in absolute
    value and takes the limit 0 as no limit. *)
Definition find_page (E : Env) (f : Filter) (limit skip : Z)
           (coll : list Post) : option (list Post) :=
  match selects E f with
  | None => None
  | Some sel =>
      if (skip <? 0)%Z then None
      else
        let rest := skipn (Z.to_nat skip) (sort_desc (filter sel coll)) in
        Some (if (limit =? 0)%Z then rest
              else firstn (Z.to_nat (Z.abs limit)) rest)
  end.

Definition getPosts (E : Env) (q : Query) (db : Db) : outcome payload * Db :=
  let page := JS.or_default (JS.parseInt (q_page q)) 1 in
  let limit := JS.or_default (JS.parseInt (q_limit q)) 10 in
  let startIndex := ((page - 1) * limit)%Z in
  let query := build_query q in
  match countDocuments E query (posts db) with
  | None => (Thrown "query rejected", db)
  | Some total =>
      match find_page E query limit startIndex (posts db) with
      | None => (Thrown "query rejected", db)
      | Some found =>
          let posts := map (view db ["username"; "email"] None) found in
          let pagination :=
            mkPagination page
                         (JS.ceil_div (Z.of_nat total) limit)
                         (page <? JS.ceil_div (Z.of_nat total) limit)%Z
                         (1 <? page)%Z in
          (Json 200 (PList (List.length posts) total pagination posts), db)
      end
  end.

(** The page, the limit and the skip of a request, as [getPosts] reads
    them. *)
Definition page_of (q : Query) : Z := JS.or_default (JS.parseInt (q_page q)) 1.
Definition limit_of (q : Query) : Z := JS.or_default (JS.parseInt (q_limit q)) 10.
Definition skip_of (q : Query) : Z := ((page_of q - 1) * limit_of q)%Z.

(** The search of the specification: a post is listed when its title or its
    content contains the search string, whatever the case of the letters
    (and when it has the status and the category asked for). *)
Definition listed_by_substring (q : Query) (p : Post) : bool :=
  match q_search q with
  | Some s => Text.icontains s (title p) || Text.icontains s (content p)
  | None => true
  end
  && (match q_category q with
      | Some c => category p =? c
      | None => true
      end
      && String.eqb (status p) (f_status (build_query q))).

(** The slice of the sorted selection a page shows. *)
Definition page_slice (q : Query) (sel : Post -> bool) (coll : list Post)
  : list Post :=
  firstn (Z.to_nat (Z.abs (limit_of q)))
         (skipn (Z.to_nat (skip_of q)) (sort_desc (filter sel coll))).

(** The answer of [getPosts] to a query the database accepts. *)
Definition listing (q : Query) (sel : Post -> bool) (db : Db) : payload :=
  let total := List.length (filter sel (posts db)) in
  let pages := JS.ceil_div (Z.of_nat total) (limit_of q) in
  PList (List.length (page_slice q sel (posts db)))
        total
        (mkPagination (page_of q) pages (page_of q <? pages)%Z (1 <? page_of q)%Z)
        (map (view db ["username"; "email"] None) (page_slice q sel (posts db))).

Definition getPost (id : nat) (db : Db) : outcome payload * Db :=
  match findById id (posts db) with
  | None => (Next (mkError "Post not found" 404), db)
  | Some found =>
      let post := set_views (views found + 1) found in
      let db' := with_posts (save post (posts db)) db in
      (Json 200 (PPost (view db ["username"; "email"; "avatar"]
                             (Some ["username"; "avatar"]) post)), db')
  end.

(** [req.body.featuredImage = `/uploads/${req.file.filename}`] when a file
    came with the request. *)
Definition attach_file (file : option string) (body : PostBody) : PostBody :=
  match file with
  | Some filename =>
      mkBody (b_title body) (b_content body) (b_category body)
             (b_excerpt body) (b_tags body) (b_status body)
             (Some (String.append "/uploads/" filename))
             (b_author body) (b_views body) (b_comments body) (b_likes body)
             (b_createdAt body)
  | None => body
  end.

Definition or_else {A : Type} (o : option A) (d : A) : A :=
  match o with
  | Some a => a
  | None => d
  end.

(** [Post.create(req.body)]: a new document with a fresh identifier and
    the members of the body as sent; a member the body leaves out takes the
    default of the schema, the creation time the time of the request.
    [author_id] is what [req.body.author] holds by then: [createPost] has
    put the caller there, in place of any author the body named. *)
Definition Post_create (E : Env) (body : PostBody) (author_id now : nat)
           (db : Db) : Post * Db :=
  let d := schema_defaults E in
  let post := mkPost (next_oid db) (b_title body) (b_content body)
                     (or_else (b_excerpt body) (d_excerpt d))
                     (or_else (b_featuredImage body) (d_featuredImage d))
                     author_id (b_category body)
                     (or_else (b_tags body) (d_tags d))
                     (or_else (b_status body) (d_status d))
                     (or_else (b_views body) (d_views d))
                     (or_else (b_comments body) (d_comments d))
                     (or_else (b_likes body) (d_likes d))
                     (or_else (b_createdAt body) now) in
  (post, mkDb (users db) (categories db) (posts db ++ [post])
              (S (next_oid db))).

Definition createPost (E : Env) (caller : Caller) (body : PostBody)
           (file : option string) (now : nat) (db : Db)
  : outcome payload * Db :=
  match validatePost E body with
  | Some msg => (Next (mkError msg 400), db)
  | None =>
      match findCategoryById (b_category body) (categories db) with
      | None => (Next (mkError "Category not found" 404), db)
      | Some _ =>
          let '(post, db') :=
            Post_create E (attach_file file body) (caller_id caller) now db in
          match findById (p_id post) (posts db') with
          | Some populatedPost =>
              (Json 201 (PPost (view db' ["username"; "email"] None
                                     populatedPost)), db')
          | None => (Json 201 PNull, db')
          end
      end
  end.

(** The update [findByIdAndUpdate(req.params.id, req.body)] applies: every
    member the body holds is set, author, views, comments, likes and
    creation time included; the others are kept. *)
Definition apply_update (body : PostBody) (p : Post) : Post :=
  mkPost (p_id p) (b_title body) (b_content body)
         (or_else (b_excerpt body) (excerpt p))
         (or_else (b_featuredImage body) (featuredImage p))
         (or_else (b_author body) (author p)) (b_category body)
         (or_else (b_tags body) (tags p))
         (or_else (b_status body) (status p))
         (or_else (b_views body) (views p))
         (or_else (b_comments body) (comments p))
         (or_else (b_likes body) (likes p))
         (or_else (b_createdAt body) (createdAt p)).

(** [post.author.toString() !== req.user.id && req.user.role !== 'admin']. *)
Definition not_owner (owner : nat) (caller : Caller) : bool :=
  negb (owner =? caller_id caller)
  && negb (String.eqb (caller_role caller) "admin").

Definition updatePost (E : Env) (id : nat) (caller : Caller) (body : PostBody)
           (file : option string) (db : Db) : outcome payload * Db :=
  match findById id (posts db) with
  | None => (Next (mkError "Post not found" 404), db)
  | Some post =>
      if not_owner (author post) caller
      then (Next (mkError "Not authorized to update this post" 403), db)
      else
        match validatePost E body with
        | Some msg => (Next (mkError msg 400), db)
        | None =>
            let post' := apply_update (attach_file file body) post in
            let db' := with_posts (save post' (posts db)) db in
            (Json 200 (PPost (view db' ["username"; "email"] None post')), db')
        end
  end.

Definition deletePost (id : nat) (caller : Caller) (db : Db)
  : outcome payload * Db :=
  match findById id (posts db) with
  | None => (Next (mkError "Post not found" 404), db)
  | Some post =>
      if not_owner (author post) caller
      then (Next (mkError "Not authorized to delete this post" 403), db)
      else (Json 200 PEmpty, with_posts (deleteOne id (posts db)) db)
  end.

Definition addComment (id : nat) (caller : Caller) (text : string) (db : Db)
  : outcome payload * Db :=
  match findById id (posts db) with
  | None => (Next (mkError "Post not found" 404), db)
  | Some post =>
      let comment := mkComment (next_oid db) (caller_id caller) text in
      let post' := set_comments (JS.push (comments post) comment) post in
      let db' := mkDb (users db) (categories db) (save post' (posts db))
                      (S (next_oid db)) in
      match findById id (posts db') with
      | Some updatedPost =>
          (Json 201
                (PComments
                   (map (fun c => (c, populate_user db' ["username"; "avatar"]
                                                    (c_author c)))
                        (comments updatedPost))), db')
      | None => (Thrown "updatedPost is null", db')
      end
  end.

(** [post.comments.id(commentId)]. *)
Definition comment_by_id (cid : nat) (cs : list Comment) : option Comment :=
  find (fun c => c_id c =? cid) cs.

(** [comment.deleteOne()]: the subdocument leaves its parent array. *)
Fixpoint remove_comment (cid : nat) (cs : list Comment) : list Comment :=
  match cs with
  | [] => []
  | c :: r => if c_id c =? cid then r else c :: remove_comment cid r
  end.

Definition deleteComment (id cid : nat) (caller : Caller) (db : Db)
  : outcome payload * Db :=
  match findById id (posts db) with
  | None => (Next (mkError "Post not found" 404), db)
  | Some post =>
      match comment_by_id cid (comments post) with
      | None => (Next (mkError "Comment not found" 404), db)
      | Some comment =>
          if not_owner (c_author comment) caller
          then (Next (mkError "Not authorized to delete this comment" 403), db)
          else
            let post' := set_comments (remove_comment cid (comments post)) post in
            (Json 200 PEmpty, with_posts (save post' (posts db)) db)
      end
  end.

(** The toggle of [likePost] on the array of likes. *)
Definition toggle (uid : nat) (ls : list nat) : list nat :=
  match JS.indexOf ls uid with
  | None => JS.push ls uid
  | Some likeIndex => JS.splice1 likeIndex ls
  end.

Definition likePost (id : nat) (caller : Caller) (db : Db)
  : outcome payload * Db :=
  match findById id (posts db) with
  | None => (Next (mkError "Post not found" 404), db)
  | Some post =>
      let likeIndex := JS.indexOf (likes post) (caller_id caller) in
      let post' := set_likes (toggle (caller_id caller) (likes post)) post in
      (Json 200 (PLike (List.length (likes post'))
                       (match likeIndex with None => true | Some _ => false end)),
       with_posts (save post' (posts db)) db)
  end.

(** ** Requests and reachable databases *)

Inductive request : Type :=
| Register (body : RegisterBody)
| Login (body : LoginBody)
| GetPosts (q : Query)
| GetPost (id : nat)
| CreatePost (caller : Caller) (body : PostBody) (file : option string)
             (now : nat)
| UpdatePost (id : nat) (caller : Caller) (body : PostBody)
             (file : option string)
| DeletePost (id : nat) (caller : Caller)
| AddComment (id : nat) (caller : Caller) (text : string)
| DeleteComment (id cid : nat) (caller : Caller)
| LikePost (id : nat) (caller : Caller).

(** The database after a request was handled. *)
Definition handle (E : Env) (r : request) (db : Db) : Db :=
  match r with
  | Register body => snd (register E body db)
  | Login body => snd (login E body db)
  | GetPosts q => snd (getPosts E q db)
  | GetPost id => snd (getPost id db)
  | CreatePost caller body file now => snd (createPost E caller body file now db)
  | UpdatePost id caller body file => snd (updatePost E id caller body file db)
  | DeletePost id caller => snd (deletePost id caller db)
  | AddComment id caller text => snd (addComment id caller text db)
  | DeleteComment id cid caller => snd (deleteComment id cid caller db)
  | LikePost id caller => snd (likePost id caller db)
  end.

(** The databases the server can hold: it starts without posts and handles
    requests one after the other. *)
Inductive reachable (E : Env) : Db -> Prop :=
| reach_init : forall us cs n, reachable E (mkDb us cs [] n)
| reach_step : forall r db, reachable E db -> reachable E (handle E r db).





(** ** Identifiers

    A database has fresh identifiers when those in use lie below its
    counter, no two posts share one, and no two comments of a post share
    one. *)

Definition post_ids_below (n : nat) (p : Post) : Prop :=
  p_id p < n
  /\ Forall (fun c => c_id c < n) (comments p)
  /\ NoDup (map c_id (comments p)).

Definition ids_fresh (db : Db) : Prop :=
  NoDup (map p_id (posts db))
  /\ Forall (post_ids_below (next_oid db)) (posts db).

(** [p] comes before [q] in a listing: it is not older. *)
Definition newer_first (p q : Post) : Prop := createdAt q <= createdAt p.

(** No two users share an email or a username. *)
Definition users_unique (db : Db) : Prop :=
  NoDup (map email (users db)) /\ NoDup (map username (users db)).

(** ** The post form of the client: tags

    The form edits the tags of a post as one line of text: it shows them
    joined by [", "] and, on submit, splits the line at the commas, trims
    the pieces and drops the empty ones.  Texts are ASCII. *)

Module Form.

(** [s.split(',')]. *)
Fixpoint split_commas (s : string) : list string :=
  match s with
  | EmptyString => [EmptyString]
  | String c r =>
      if Ascii.eqb c ","
      then EmptyString :: split_commas r
      else match split_commas r with
           | t :: ts => String c t :: ts
           | [] => [String c EmptyString]
           end
  end.

(** [s.trimEnd()]. *)
Fixpoint trim_end (s : string) : string :=
  match s with
  | EmptyString => EmptyString
  | String c r =>
      match trim_end r with
      | EmptyString => if JS.is_space c then EmptyString
                       else String c EmptyString
      | t => String c t
      end
  end.

(** [s.trim()]. *)
Definition trim (s : string) : string := trim_end (JS.skip_spaces s).

Definition nonempty (s : string) : bool :=
  match s with
  | EmptyString => false
  | String _ _ => true
  end.

(** [data.tags.split(',').map(tag => tag.trim()).filter(tag => tag)]. *)
Definition parse_tags (s : string) : list string :=
  filter nonempty (map trim (split_commas s)).

(** [tags.join(', ')]. *)
Fixpoint join (tags : list string) : string :=
  match tags with
  | [] => EmptyString
  | [t] => t
  | t :: ts => String.append t (String.append ", " (join ts))
  end.

(** The default value of the tags field: [post?.tags?.join(', ') || '']. *)
Definition default_tags (post : option Post) : string :=
  match post with
  | Some p => join (tags p)
  | None => EmptyString
  end.

Fixpoint has_comma (s : string) : bool :=
  match s with
  | EmptyString => false
  | String c r => Ascii.eqb c "," || has_comma r
  end.

(** A tag as the form produces it: not empty, without comma, without space
    at either end. *)
Definition clean (t : string) : Prop :=
  t <> EmptyString /\ has_comma t = false /\ trim t = t.

End Form.

(** A line of nothing but spaces and commas. *)
Fixpoint blank (s : string) : bool :=
  match s with
  | EmptyString => true
  | String c r => (JS.is_space c || Ascii.eqb c ",") && blank r
  end.

(** ** The list view of the client *)

Module ListView.

(** The state of the view the request depends on. *)
Record State : Type := mkState {
  currentPage : nat;
  searchTerm : string;
  selectedCategory : option nat
}.

(** A natural number below 2^53 as [URLSearchParams] writes it: in plain
    decimal digits. *)
Definition number_to_string (n : nat) : string :=
  NilEmpty.string_of_uint (Nat.to_uint n).

(** The query of [fetchPosts]: the page, the limit 6, and the search term
    and the category when they are set; never a status. *)
Definition fetch_query (st : State) : Query :=
  mkQuery (Some (number_to_string (currentPage st)))
          (Some (number_to_string 6))
          (if Form.nonempty (searchTerm st) then Some (searchTerm st) else None)
          (selectedCategory st)
          None.

(** What [fetchPosts] stores of the answer: the posts and the number of
    pages; after a failed request both stay as they were. *)
Definition fetchPosts (E : Env) (st : State) (db : Db)
           (shown : list PostView * Z) : list PostView * Z :=
  match fst (getPosts E (fetch_query st) db) with
  | Json _ (PList _ _ pagination data) => (data, total pagination)
  | _ => shown
  end.

(** The pagination control is rendered when [totalPages > 1]. *)
Definition shows_pagination (shown : list PostView * Z) : bool :=
  (1 <? snd shown)%Z.

End ListView.

(** ** A sample environment and database, for the examples *)

Definition sample_env : Env :=
  mkEnv (fun b => if String.eqb (r_password b) "" then Some "password is required"
                  else None)
        (fun b => if String.eqb (l_password b) "" then Some "password is required"
                  else None)
        (fun b => if String.eqb (b_title b) "" then Some "title is required"
                  else None)
        (fun id => "signed")
        (fun pw => String.append "hashed:" pw)
        (fun entered stored => String.eqb (String.append "hashed:" entered) stored)
        (fun _ => None)
        (mkDefaults "" "" [] "draft" 0 [] []).

Definition alice : User := mkUser 1 "alice" "alice@example.com" "hashed:wonderland" "user".
Definition bob : User := mkUser 2 "bob" "bob@example.com" "hashed:builder" "admin".

Definition sample_db : Db :=
  mkDb [alice; bob] [mkCategory 10 "Tech" "tech"] [] 100.

Definition sample_body (t c : string) (st : string) : PostBody :=
  mkPostBody t c 10 None None (Some st) None.

(** The sample database after alice created one published post (which
    gets the identifier 100). *)
Definition one_post_db : Db :=
  handle sample_env
         (CreatePost (mkCaller 1 "user") (sample_body "Hello" "First post" "published")
                     None 5)
         sample_db.

(** ... and after bob liked it. *)
Definition liked_db : Db :=
  handle sample_env (LikePost 100 (mkCaller 2 "admin")) one_post_db.

(** A body that names likes, and bob twice among them. *)
Definition doubled_body : PostBody :=
  mkBody "Liked" "Twice by bob" 10 None None (Some "published") None
         None None None (Some [2; 2]) None.

(** The sample database after alice created a post with that body (the
    sample validator looks at the title only). *)
Definition doubled_db : Db :=
  handle sample_env (CreatePost (mkCaller 1 "user") doubled_body None 5)
         sample_db.

(** Thirteen published posts (created at times 1 to 13) and two drafts. *)
Definition thirteen_db : Db :=
  mkDb [alice; bob] [mkCategory 10 "Tech" "tech"]
       (map (fun i => mkPost i "Post" "Text" "" "" 1 10 [] "published" 0 [] [] i)
            (seq 1 13)
        ++ [mkPost 14 "Draft" "Text" "" "" 1 10 [] "draft" 0 [] [] 14;
            mkPost 15 "Draft" "Text" "" "" 2 10 [] "draft" 0 [] [] 15])
       100.

Definition page_query (page : string) : Query :=
  mkQuery (Some page) (Some "6") None None None.

(** * Properties *)

(** ** Arrays of likes *)

Lemma indexOf_None (ls : list nat) (u : nat) :
  JS.indexOf ls u = None <-> ~ In u ls.
Proof.
  induction ls as [|y r IH]; simpl.
  - tauto.
  - destruct (Nat.eqb_spec y u) as [->|Hne].
    + split; [discriminate | intros H; exfalso; apply H; now left].
    + destruct (JS.indexOf r u) eqn:Hr; simpl.
      * split; [discriminate|].
        intros H. exfalso. apply H. right.
        destruct (in_dec Nat.eq_dec u r) as [Hin|Hout]; [exact Hin|].
        apply IH in Hout. discriminate.
      * split; [|reflexivity].
        intros _ [Heq|Hin]; [now apply Hne|].
        now apply (proj1 IH).
Qed.

Lemma indexOf_Some_In (ls : list nat) (u i : nat) :
  JS.indexOf ls u = Some i -> In u ls.
Proof.
  intros H. destruct (in_dec Nat.eq_dec u ls) as [Hin|Hout]; [exact Hin|].
  apply indexOf_None in Hout. congruence.
Qed.

Lemma splice1_perm (ls : list nat) (u i : nat) :
  JS.indexOf ls u = Some i -> Permutation ls (u :: JS.splice1 i ls).
Proof.
  revert i. induction ls as [|y r IH]; simpl; intros i H; [discriminate|].
  destruct (Nat.eqb_spec y u) as [->|Hne].
  - injection H as <-. reflexivity.
  - destruct (JS.indexOf r u) as [j|] eqn:Hr; simpl in H; [|discriminate].
    injection H as <-. simpl.
    rewrite (IH j eq_refl) at 1. apply perm_swap.
Qed.

Lemma indexOf_push_fresh (ls : list nat) (u : nat) :
  ~ In u ls -> JS.indexOf (JS.push ls u) u = Some (List.length ls).
Proof.
  unfold JS.push. induction ls as [|y r IH]; simpl; intros H.
  - now rewrite Nat.eqb_refl.
  - destruct (Nat.eqb_spec y u) as [->|Hne]; [exfalso; apply H; now left|].
    rewrite IH; [reflexivity|]. intros Hin. apply H. now right.
Qed.

Lemma splice1_push (ls : list nat) (u : nat) :
  JS.splice1 (List.length ls) (JS.push ls u) = ls.
Proof.
  unfold JS.push. induction ls as [|y r IH]; simpl; [reflexivity|].
  now rewrite IH.
Qed.

Lemma toggle_absent (u : nat) (ls : list nat) :
  ~ In u ls -> toggle u ls = ls ++ [u].
Proof.
  intros H. unfold toggle. apply indexOf_None in H. now rewrite H.
Qed.

Lemma toggle_present (u : nat) (ls : list nat) :
  In u ls ->
  exists i, JS.indexOf ls u = Some i /\ toggle u ls = JS.splice1 i ls.
Proof.
  intros H. unfold toggle.
  destruct (JS.indexOf ls u) as [i|] eqn:Hi.
  - now exists i.
  - apply indexOf_None in Hi. contradiction.
Qed.


Lemma toggle_flips (u : nat) (ls : list nat) :
  NoDup ls -> (In u (toggle u ls) <-> ~ In u ls).
Proof.
  intros Hnd. destruct (in_dec Nat.eq_dec u ls) as [Hin|Hout].
  - destruct (toggle_present u ls Hin) as (i & Hi & ->).
    apply splice1_perm in Hi.
    apply (Permutation_NoDup Hi) in Hnd. inversion Hnd; subst.
    tauto.
  - rewrite (toggle_absent u ls Hout). rewrite in_app_iff. simpl. tauto.
Qed.

Lemma toggle_others (u v : nat) (ls : list nat) :
  v <> u -> (In v (toggle u ls) <-> In v ls).
Proof.
  intros Hne. destruct (in_dec Nat.eq_dec u ls) as [Hin|Hout].
  - destruct (toggle_present u ls Hin) as (i & Hi & ->).
    apply splice1_perm in Hi.
    split; intros H.
    + apply (Permutation_in _ (Permutation_sym Hi)). now right.
    + apply (Permutation_in _ Hi) in H. destruct H as [->|H]; tauto.
  - rewrite (toggle_absent u ls Hout). rewrite in_app_iff. simpl.
    split; [intros [H|[->|[]]]; tauto | tauto].
Qed.

Lemma toggle_twice (u : nat) (ls : list nat) :
  NoDup ls -> Permutation (toggle u (toggle u ls)) ls.
Proof.
  intros Hnd. destruct (in_dec Nat.eq_dec u ls) as [Hin|Hout].
  - destruct (toggle_present u ls Hin) as (i & Hi & Ht).
    assert (Hout : ~ In u (toggle u ls)).
    { intros H. apply (toggle_flips u ls Hnd) in H. contradiction. }
    rewrite (toggle_absent _ _ Hout), Ht.
    apply splice1_perm in Hi. rewrite Hi at 2.
    symmetry. apply Permutation_cons_append.
  - rewrite (toggle_absent u ls Hout).
    unfold toggle. fold (JS.push ls u).
    rewrite (indexOf_push_fresh ls u Hout), splice1_push. reflexivity.
Qed.

Lemma toggle_twice_absent (u : nat) (ls : list nat) :
  ~ In u ls -> toggle u (toggle u ls) = ls.
Proof.
  intros Hout. rewrite (toggle_absent u ls Hout).
  unfold toggle. fold (JS.push ls u).
  now rewrite (indexOf_push_fresh ls u Hout), splice1_push.
Qed.

(** ** Collections *)

Lemma findById_id (id : nat) (coll : list Post) (p : Post) :
  findById id coll = Some p -> p_id p = id.
Proof.
  intros H. apply find_some in H. now apply Nat.eqb_eq.
Qed.

Lemma findById_In (id : nat) (coll : list Post) (p : Post) :
  findById id coll = Some p -> In p coll.
Proof.
  intros H. now apply find_some in H.
Qed.

Lemma findById_save_same (id : nat) (coll : list Post) (p p' : Post) :
  findById id coll = Some p -> p_id p' = id ->
  findById id (save p' coll) = Some p'.
Proof.
  unfold findById, findOne. intros H Hid.
  induction coll as [|q r IH]; simpl in *; [discriminate|].
  rewrite Hid.
  destruct (Nat.eqb_spec (p_id q) id) as [Hq|Hq]; simpl.
  - rewrite Hid. now rewrite Nat.eqb_refl.
  - apply Nat.eqb_neq in Hq. rewrite Hq. now apply IH.
Qed.

Lemma findById_save_other (j : nat) (coll : list Post) (p' : Post) :
  j <> p_id p' -> findById j (save p' coll) = findById j coll.
Proof.
  unfold findById, findOne. intros Hne.
  induction coll as [|q r IH]; simpl; [reflexivity|].
  destruct (Nat.eqb_spec (p_id q) (p_id p')) as [Hq|Hq]; simpl.
  - rewrite Hq. apply Nat.eqb_neq in Hne. rewrite Nat.eqb_sym in Hne.
    now rewrite Hne.
  - destruct (p_id q =? j); [reflexivity | exact IH].
Qed.

Lemma save_length (p' : Post) (coll : list Post) :
  List.length (save p' coll) = List.length coll.
Proof.
  induction coll as [|q r IH]; simpl; [reflexivity|].
  destruct (p_id q =? p_id p'); simpl; congruence.
Qed.




(** ** The likes of a post hold each user at most once *)


Lemma login_db (E : Env) (body : LoginBody) (db : Db) :
  snd (login E body db) = db.
Proof.
  unfold login.
  destruct (validateLogin E body); [reflexivity|].
  destruct (findOne _ (users db)); [|reflexivity].
  destruct (negb _); reflexivity.
Qed.

Lemma getPosts_db (E : Env) (q : Query) (db : Db) :
  snd (getPosts E q db) = db.
Proof.
  unfold getPosts.
  destruct (countDocuments E _ _); [|reflexivity].
  destruct (find_page E _ _ _ _); reflexivity.
Qed.





Lemma splice1_remove (ls : list nat) (u i : nat) :
  NoDup ls -> JS.indexOf ls u = Some i ->
  JS.splice1 i ls = remove Nat.eq_dec u ls.
Proof.
  intros Hnd. revert i.
  induction Hnd as [|y r Hy Hr IH]; simpl; intros i H; [discriminate|].
  destruct (Nat.eqb_spec y u) as [->|Hne].
  - injection H as <-. simpl.
    destruct (Nat.eq_dec u u) as [_|Hn]; [|contradiction].
    symmetry. now apply notin_remove.
  - destruct (JS.indexOf r u) as [j|] eqn:Hj; simpl in H; [|discriminate].
    injection H as <-. simpl.
    destruct (Nat.eq_dec u y) as [Heq|_]; [symmetry in Heq; contradiction|].
    now rewrite (IH j eq_refl).
Qed.

(** The toggle in the words of the specification: the reference of the
    user is removed if present, else appended. *)
Lemma toggle_spec (u : nat) (ls : list nat) :
  NoDup ls ->
  toggle u ls = if in_dec Nat.eq_dec u ls
                then remove Nat.eq_dec u ls
                else ls ++ [u].
Proof.
  intros Hnd. destruct (in_dec Nat.eq_dec u ls) as [Hin|Hout].
  - destruct (toggle_present u ls Hin) as (i & Hi & ->).
    now apply splice1_remove.
  - now apply toggle_absent.
Qed.

Lemma toggle_twice_spec (u : nat) (ls : list nat) :
  NoDup ls ->
  toggle u (toggle u ls) = if in_dec Nat.eq_dec u ls
                           then remove Nat.eq_dec u ls ++ [u]
                           else ls.
Proof.
  intros Hnd. rewrite (toggle_spec u ls Hnd).
  destruct (in_dec Nat.eq_dec u ls) as [Hin|Hout].
  - apply toggle_absent. apply remove_In.
  - fold (toggle u ls). rewrite <- (toggle_absent u ls Hout).
    now apply toggle_twice_absent.
Qed.

Lemma likePost_found (id : nat) (caller : Caller) (db : Db) (post : Post) :
  findById id (posts db) = Some post ->
  likePost id caller db =
    (Json 200 (PLike (List.length (toggle (caller_id caller) (likes post)))
                     (if in_dec Nat.eq_dec (caller_id caller) (likes post)
                      then false else true)),
     with_posts (save (set_likes (toggle (caller_id caller) (likes post)) post)
                      (posts db)) db)
  /\ findById id (posts (snd (likePost id caller db)))
     = Some (set_likes (toggle (caller_id caller) (likes post)) post).
Proof.
  intros Hf. unfold likePost. rewrite Hf. simpl. split.
  - f_equal. f_equal. f_equal.
    destruct (in_dec Nat.eq_dec (caller_id caller) (likes post)) as [Hin|Hout].
    + destruct (toggle_present _ _ Hin) as (i & -> & _). reflexivity.
    + apply indexOf_None in Hout. now rewrite Hout.
  - apply (findById_save_same id (posts db) post); [exact Hf|].
    simpl. exact (findById_id _ _ _ Hf).
Qed.

Lemma count_occ_zero_out (ls : list nat) (u : nat) :
  count_occ Nat.eq_dec ls u = 0 -> ~ In u ls.
Proof.
  intros H. now apply count_occ_not_In in H.
Qed.

Lemma splice1_remove_once (ls : list nat) (u i : nat) :
  count_occ Nat.eq_dec ls u <= 1 -> JS.indexOf ls u = Some i ->
  JS.splice1 i ls = remove Nat.eq_dec u ls.
Proof.
  revert i. induction ls as [|y r IH]; simpl; intros i Hc H; [discriminate|].
  destruct (Nat.eqb_spec y u) as [->|Hne].
  - injection H as <-. simpl.
    destruct (Nat.eq_dec u u) as [_|Hn]; [|contradiction].
    symmetry. apply notin_remove. apply count_occ_zero_out. lia.
  - destruct (JS.indexOf r u) as [j|] eqn:Hj; simpl in H; [|discriminate].
    injection H as <-. simpl.
    destruct (Nat.eq_dec y u) as [Heq|_]; [contradiction|].
    destruct (Nat.eq_dec u y) as [Heq|_]; [symmetry in Heq; contradiction|].
    now rewrite (IH j Hc eq_refl).
Qed.

(** The toggle on likes that hold the user at most once. *)
Lemma toggle_once (u : nat) (ls : list nat) :
  count_occ Nat.eq_dec ls u <= 1 ->
  toggle u ls = (if in_dec Nat.eq_dec u ls
                 then remove Nat.eq_dec u ls
                 else ls ++ [u])
  /\ (In u (toggle u ls) <-> ~ In u ls)
  /\ count_occ Nat.eq_dec (toggle u ls) u <= 1.
Proof.
  intros Hc. destruct (in_dec Nat.eq_dec u ls) as [Hin|Hout].
  - destruct (toggle_present u ls Hin) as (i & Hi & ->).
    rewrite (splice1_remove_once ls u i Hc Hi).
    pose proof (remove_In Nat.eq_dec ls u) as Hgone.
    split; [reflexivity|]. split; [tauto|].
    apply (count_occ_not_In Nat.eq_dec) in Hgone. lia.
  - rewrite (toggle_absent u ls Hout).
    split; [reflexivity|]. split.
    + rewrite in_app_iff. simpl. tauto.
    + rewrite count_occ_app. simpl.
      apply (count_occ_not_In Nat.eq_dec) in Hout.
      destruct (Nat.eq_dec u u); lia.
Qed.

Lemma toggle_twice_once (u : nat) (ls : list nat) :
  count_occ Nat.eq_dec ls u <= 1 ->
  toggle u (toggle u ls) = (if in_dec Nat.eq_dec u ls
                            then remove Nat.eq_dec u ls ++ [u]
                            else ls)
  /\ Permutation (toggle u (toggle u ls)) ls.
Proof.
  intros Hc. destruct (toggle_once u ls Hc) as (Hspec & _ & _).
  destruct (in_dec Nat.eq_dec u ls) as [Hin|Hout].
  - assert (Htwice : toggle u (toggle u ls) = remove Nat.eq_dec u ls ++ [u]).
    { rewrite Hspec. apply toggle_absent. apply remove_In. }
    split; [exact Htwice|]. rewrite Htwice.
    destruct (toggle_present u ls Hin) as (i & Hi & Ht).
    rewrite <- Hspec, Ht.
    apply splice1_perm in Hi. rewrite Hi at 2.
    symmetry. apply Permutation_cons_append.
  - rewrite (toggle_twice_absent u ls Hout). split; reflexivity.
Qed.

(** C1 fails on likes that hold the caller twice, which a request body can
    put into a post: on the post created with likes [2; 2], the first
    [likePost] of user 2 leaves the user among the likes and the second
    leaves no likes at all. *)
Lemma likePost_twice_on_doubled_likes :
  reachable sample_env doubled_db
  /\ map likes (posts doubled_db) = [[2; 2]]
  /\ likePost 100 (mkCaller 2 "admin") doubled_db
     = (Json 200 (PLike 1 false),
        snd (likePost 100 (mkCaller 2 "admin") doubled_db))
  /\ map likes (posts (snd (likePost 100 (mkCaller 2 "admin") doubled_db)))
     = [[2]]
  /\ map likes
         (posts (snd (likePost 100 (mkCaller 2 "admin")
                               (snd (likePost 100 (mkCaller 2 "admin")
                                              doubled_db)))))
     = [[]].
Proof.
  split; [apply reach_step, reach_init | repeat split].
Qed.

(** C1, amended. For every stored post whose likes hold the caller at most
    once: one [likePost] flips the membership of the caller in the likes
    of the post (the reference is removed if present, else appended), and
    two [likePost] in a row by the same caller give the likes their
    original members and count back (the array itself when the caller had
    not liked the post; with the caller moved to the end when they had),
    the rest of the post being as it was. *)
Theorem likePost_twice_restores
        (db : Db) (id : nat) (caller : Caller) (post : Post) :
  findById id (posts db) = Some post ->
  count_occ Nat.eq_dec (likes post) (caller_id caller) <= 1 ->
  let u := caller_id caller in
  let db1 := snd (likePost id caller db) in
  let db2 := snd (likePost id caller db1) in
  exists post1 post2,
    findById id (posts db1) = Some post1
    /\ findById id (posts db2) = Some post2
    /\ likes post1 = (if in_dec Nat.eq_dec u (likes post)
                      then remove Nat.eq_dec u (likes post)
                      else likes post ++ [u])
    /\ (In u (likes post1) <-> ~ In u (likes post))
    /\ (In u (likes post2) <-> ~ In u (likes post1))
    /\ likes post2 = (if in_dec Nat.eq_dec u (likes post)
                      then remove Nat.eq_dec u (likes post) ++ [u]
                      else likes post)
    /\ Permutation (likes post2) (likes post)
    /\ (forall v, In v (likes post2) <-> In v (likes post))
    /\ List.length (likes post2) = List.length (likes post)
    /\ post2 = set_likes (likes post2) post
    /\ fst (likePost id caller db1)
       = Json 200 (PLike (List.length (likes post))
                         (if in_dec Nat.eq_dec u (likes post)
                          then true else false)).
Proof.
  intros Hf Hc u db1 db2.
  destruct (likePost_found id caller db post Hf) as [_ Hf1].
  fold db1 in Hf1. fold u in Hf1, Hc.
  set (post1 := set_likes (toggle u (likes post)) post) in *.
  destruct (likePost_found id caller db1 post1 Hf1) as [Hr2 Hf2].
  fold db2 in Hf2. fold u in Hf2, Hr2.
  destruct (toggle_once u (likes post) Hc) as (Hspec & Hflip & Hc1).
  destruct (toggle_once u (likes post1) Hc1) as (_ & Hflip1 & _).
  destruct (toggle_twice_once u (likes post) Hc) as [Htwice Hperm].
  exists post1, (set_likes (toggle u (likes post1)) post1).
  split; [exact Hf1|]. split; [exact Hf2|].
  split; [exact Hspec|]. split; [exact Hflip|]. split; [exact Hflip1|].
  split; [exact Htwice|]. split; [exact Hperm|].
  split.
  { intros v. split; intros H.
    - exact (Permutation_in _ Hperm H).
    - exact (Permutation_in _ (Permutation_sym Hperm) H). }
  split; [exact (Permutation_length Hperm)|].
  split; [reflexivity|].
  rewrite Hr2. simpl. f_equal. f_equal.
  - exact (Permutation_length Hperm).
  - destruct (in_dec Nat.eq_dec u (toggle u (likes post))) as [Hin|Hout];
      destruct (in_dec Nat.eq_dec u (likes post)) as [Hin'|Hout'];
      try reflexivity; exfalso.
    + apply Hflip in Hin. contradiction.
    + apply Hout. now apply Hflip.
Qed.

Lemma likePost_twice_restores_witness :
  exists post1 post2,
    findById 100 (posts (snd (likePost 100 (mkCaller 2 "admin") liked_db)))
    = Some post1
    /\ findById 100
         (posts (snd (likePost 100 (mkCaller 2 "admin")
                               (snd (likePost 100 (mkCaller 2 "admin") liked_db)))))
       = Some post2
    /\ likes post1 = []
    /\ likes post2 = [2].
Proof.
  destruct (likePost_twice_restores liked_db 100 (mkCaller 2 "admin")
              (mkPost 100 "Hello" "First post" "" "" 1 10 [] "published" 0 [] [2] 5)
              eq_refl ltac:(simpl; lia))
    as (post1 & post2 & H1 & H2 & _).
  exists post1, post2.
  split; [exact H1|]. split; [exact H2|].
  vm_compute in H1, H2.
  injection H1 as <-. injection H2 as <-. split; reflexivity.
Defined.




(** ** Fetching one post *)

(** C6. [getPost] of an identifier no post has hands the 404 error
    [Post not found] to the error handler and leaves the database as it
    is.  [getPost] of a stored post answers with that post, its views one
    higher; in the database exactly that changed: the views of this post
    are one higher, its other fields are as before, and every other post
    and collection is as before. *)
Theorem getPost_effect (id : nat) (db : Db) :
  (findById id (posts db) = None ->
   getPost id db = (Next PostNotFound, db))
  /\ (forall post,
        findById id (posts db) = Some post ->
        exists v db',
          getPost id db = (Json 200 (PPost v), db')
          /\ views (doc v) = views post + 1
          /\ set_views (views post) (doc v) = post
          /\ findById id (posts db') = Some (doc v)
          /\ (forall j, j <> id -> findById j (posts db') = findById j (posts db))
          /\ List.length (posts db') = List.length (posts db)
          /\ users db' = users db
          /\ categories db' = categories db
          /\ next_oid db' = next_oid db).
Proof.
  split.
  - intros Hf. unfold getPost. now rewrite Hf.
  - intros post Hf. unfold getPost. rewrite Hf.
    eexists. eexists. split; [reflexivity|]. simpl.
    pose proof (findById_id _ _ _ Hf) as Hid.
    repeat split.
    + now destruct post.
    + apply (findById_save_same id (posts db) post); [exact Hf | exact Hid].
    + intros j Hj. apply findById_save_other. simpl. congruence.
    + apply save_length.
Qed.

Lemma getPost_effect_witness :
  getPost 7 one_post_db = (Next PostNotFound, one_post_db)
  /\ map views (posts (snd (getPost 100 one_post_db))) = [1]
  /\ map views (posts (snd (getPost 100 (snd (getPost 100 one_post_db))))) = [2].
Proof.
  split; [|split; reflexivity].
  exact (proj1 (getPost_effect 7 one_post_db) eq_refl).
Defined.

(** ** Updating a post *)

Lemma not_owner_true (owner : nat) (caller : Caller) :
  owner <> caller_id caller -> caller_role caller <> "admin" ->
  not_owner owner caller = true.
Proof.
  intros Hid Hrole. unfold not_owner.
  apply Nat.eqb_neq in Hid. apply String.eqb_neq in Hrole.
  now rewrite Hid, Hrole.
Qed.

Lemma not_owner_false (owner : nat) (caller : Caller) :
  owner = caller_id caller \/ caller_role caller = "admin" ->
  not_owner owner caller = false.
Proof.
  unfold not_owner. intros [->| ->].
  - now rewrite Nat.eqb_refl.
  - simpl. apply andb_false_r.
Qed.

(** C10. [updatePost] looks for the post first (404 when there is none,
    whoever calls and whatever the body), then checks the caller (403 for a
    caller who is neither the author nor an admin, whether the body is valid
    or not), and validates the body last (400 with the message of the
    validator); whenever it does not answer with success the database is
    left as it was. *)
Theorem updatePost_error_order
        (E : Env) (id : nat) (caller : Caller) (body : PostBody)
        (file : option string) (db : Db) :
  (findById id (posts db) = None ->
   updatePost E id caller body file db = (Next PostNotFound, db))
  /\ (forall post,
        findById id (posts db) = Some post ->
        author post <> caller_id caller ->
        caller_role caller <> "admin" ->
        updatePost E id caller body file db
        = (Next (Forbidden "update this post"), db))
  /\ (forall post msg,
        findById id (posts db) = Some post ->
        author post = caller_id caller \/ caller_role caller = "admin" ->
        validatePost E body = Some msg ->
        updatePost E id caller body file db = (Next (ValidationError msg), db))
  /\ (forall post,
        findById id (posts db) = Some post ->
        author post = caller_id caller \/ caller_role caller = "admin" ->
        validatePost E body = None ->
        exists v, fst (updatePost E id caller body file db) = Json 200 (PPost v))
  /\ match fst (updatePost E id caller body file db) with
     | Json _ _ => True
     | _ => snd (updatePost E id caller body file db) = db
     end.
Proof.
  unfold updatePost. repeat split.
  - intros Hf. now rewrite Hf.
  - intros post Hf Hid Hrole. rewrite Hf.
    now rewrite (not_owner_true _ _ Hid Hrole).
  - intros post msg Hf Hown Hv. rewrite Hf, Hv.
    now rewrite (not_owner_false _ _ Hown).
  - intros post Hf Hown Hv. rewrite Hf, Hv.
    rewrite (not_owner_false _ _ Hown). simpl. eexists. reflexivity.
  - destruct (findById id (posts db)) as [post|]; [|reflexivity].
    destruct (not_owner _ _); [reflexivity|].
    destruct (validatePost E body); [reflexivity | exact I].
Qed.

(** A caller who is neither the author nor an admin and sends an invalid
    body (an empty title) is told 403, not 400. *)
Lemma updatePost_error_order_witness :
  updatePost sample_env 100 (mkCaller 3 "user") (sample_body "" "x" "draft")
             None one_post_db
  = (Next (Forbidden "update this post"), one_post_db)
  /\ updatePost sample_env 100 (mkCaller 1 "user") (sample_body "" "x" "draft")
                None one_post_db
     = (Next (ValidationError "title is required"), one_post_db)
  /\ updatePost sample_env 101 (mkCaller 1 "user") (sample_body "" "x" "draft")
                None one_post_db
     = (Next PostNotFound, one_post_db).
Proof.
  pose proof (updatePost_error_order sample_env 100 (mkCaller 3 "user")
                (sample_body "" "x" "draft") None one_post_db)
    as (_ & Hforbidden & _).
  split; [|split; reflexivity].
  apply (Hforbidden (mkPost 100 "Hello" "First post" "" "" 1 10 [] "published"
                            0 [] [] 5)).
  - reflexivity.
  - simpl. lia.
  - discriminate.
Defined.

(** ** Registration and login *)

Lemma findOne_exists {A : Type} (f : A -> bool) (coll : list A) (x : A) :
  In x coll -> f x = true -> exists y, findOne f coll = Some y /\ f y = true.
Proof.
  intros Hin Hfx. unfold findOne.
  destruct (find f coll) as [y|] eqn:Hfind.
  - exists y. split; [reflexivity|]. now apply find_some in Hfind.
  - rewrite (find_none f coll Hfind x Hin) in Hfx. discriminate.
Qed.

Lemma register_taken (E : Env) (body : RegisterBody) (db : Db) (u : User) :
  In u (users db) ->
  email u = r_email body \/ username u = r_username body ->
  register E body db
  = (Next (match validateRegister E body with
           | Some msg => ValidationError msg
           | None => ConflictError
           end), db).
Proof.
  intros Hin Hsame. unfold register.
  destruct (validateRegister E body) as [msg|]; [reflexivity|].
  destruct (findOne_exists
              (fun u => String.eqb (email u) (r_email body)
                        || String.eqb (username u) (r_username body))
              (users db) u Hin) as (y & -> & _); [|reflexivity].
  apply orb_true_iff. destruct Hsame as [->| ->]; [left|right];
    apply String.eqb_refl.
Qed.

Lemma register_success (E : Env) (body : RegisterBody) (db db1 : Db)
      (status : nat) (j : json) :
  register E body db = (Json status j, db1) ->
  validateRegister E body = None
  /\ status = 201
  /\ j = auth_body (jwt_sign E (next_oid db))
                   (mkUser (next_oid db) (r_username body) (r_email body)
                           (hash_password E (r_password body)) "user")
  /\ users db1 = users db ++ [mkUser (next_oid db) (r_username body)
                                     (r_email body)
                                     (hash_password E (r_password body)) "user"].
Proof.
  unfold register.
  destruct (validateRegister E body) as [msg|]; [discriminate|].
  destruct (findOne _ (users db)); [discriminate|].
  simpl. intros H. injection H as <- <- <-. repeat split.
Qed.

(** C8. When a stored user has the email or the username of the request,
    [register] fails and creates no user: a request that passes validation
    is refused with the error [User already exists] (a request that does
    not is refused by the validator before).  In particular, after a
    successful registration a second one with the same email is refused
    with that error.  No refused registration changes the database. *)
Theorem register_conflict (E : Env) (body : RegisterBody) (db : Db) :
  (forall u,
     In u (users db) ->
     email u = r_email body \/ username u = r_username body ->
     (validateRegister E body = None ->
      register E body db = (Next ConflictError, db))
     /\ exists err, register E body db = (Next err, db))
  /\ (forall status j db1,
        register E body db = (Json status j, db1) ->
        register E body db1 = (Next ConflictError, db1)
        /\ forall body2,
            r_email body2 = r_email body ->
            validateRegister E body2 = None ->
            register E body2 db1 = (Next ConflictError, db1))
  /\ match fst (register E body db) with
     | Json _ _ => True
     | _ => snd (register E body db) = db
     end.
Proof.
  split; [|split].
  - intros u Hin Hsame.
    pose proof (register_taken E body db u Hin Hsame) as H. split.
    + intros Hv. now rewrite Hv in H.
    + eexists. exact H.
  - intros status j db1 Hok.
    destruct (register_success E body db db1 status j Hok)
      as (Hv & _ & _ & Hus).
    set (me := mkUser (next_oid db) (r_username body) (r_email body)
                      (hash_password E (r_password body)) "user") in Hus.
    assert (Hin : In me (users db1)).
    { rewrite Hus. apply in_or_app. right. now left. }
    split.
    + rewrite (register_taken E body db1 me Hin (or_introl eq_refl)).
      now rewrite Hv.
    + intros body2 Hmail Hv2.
      rewrite (register_taken E body2 db1 me Hin
                 (or_introl (eq_sym Hmail))).
      now rewrite Hv2.
  - unfold register.
    destruct (validateRegister E body); [reflexivity|].
    destruct (findOne _ (users db)); [reflexivity | exact I].
Qed.

Lemma register_conflict_witness :
  register sample_env (mkRegisterBody "carol" "alice@example.com" "secret")
           sample_db
  = (Next ConflictError, sample_db)
  /\ register sample_env (mkRegisterBody "bob" "robert@example.com" "secret")
              sample_db
     = (Next ConflictError, sample_db)
  /\ register sample_env (mkRegisterBody "carol" "carol@example.com" "secret")
              (snd (register sample_env
                             (mkRegisterBody "carol" "carol@example.com" "secret")
                             sample_db))
     = (Next ConflictError,
        snd (register sample_env
                      (mkRegisterBody "carol" "carol@example.com" "secret")
                      sample_db)).
Proof.
  split; [|split].
  - apply (proj1 (register_conflict sample_env _ sample_db) alice).
    + now left.
    + now left.
    + reflexivity.
  - apply (proj1 (register_conflict sample_env _ sample_db) bob).
    + right. now left.
    + now right.
    + reflexivity.
  - exact (proj1 (proj1 (proj2 (register_conflict
                                  sample_env
                                  (mkRegisterBody "carol" "carol@example.com" "secret")
                                  sample_db))
                   201
                   (auth_body "signed"
                              (mkUser 100 "carol" "carol@example.com"
                                      "hashed:secret" "user"))
                   (snd (register sample_env
                                  (mkRegisterBody "carol" "carol@example.com" "secret")
                                  sample_db))
                   eq_refl)).
Defined.

Lemma login_unknown_email (E : Env) (body : LoginBody) (db : Db) :
  (forall u, In u (users db) -> email u <> l_email body) ->
  login E body db
  = (Next (match validateLogin E body with
           | Some msg => ValidationError msg
           | None => AuthError
           end), db).
Proof.
  intros Hnone. unfold login.
  destruct (validateLogin E body) as [msg|]; [reflexivity|].
  destruct (findOne _ (users db)) as [u|] eqn:Hf; [|reflexivity].
  apply find_some in Hf. destruct Hf as [Hin Heq].
  apply String.eqb_eq in Heq. now apply Hnone in Hin.
Qed.

Lemma login_wrong_password (E : Env) (body : LoginBody) (db : Db) :
  (exists u, In u (users db) /\ email u = l_email body) ->
  (forall u, In u (users db) -> email u = l_email body ->
             matchPassword E (l_password body) (password u) = false) ->
  login E body db
  = (Next (match validateLogin E body with
           | Some msg => ValidationError msg
           | None => AuthError
           end), db).
Proof.
  intros (u & Hin & Hmail) Hwrong. unfold login.
  destruct (validateLogin E body) as [msg|]; [reflexivity|].
  destruct (findOne_exists (fun u => String.eqb (email u) (l_email body))
                           (users db) u Hin) as (y & Hy & Hey).
  { rewrite Hmail. apply String.eqb_refl. }
  rewrite Hy. apply find_some in Hy. destruct Hy as [Hyin _].
  apply String.eqb_eq in Hey.
  now rewrite (Hwrong y Hyin Hey).
Qed.

(** C4. A login whose email no stored user has, and a login whose email a
    stored user has but whose password does not match, both fail, and with
    the same error: on a request that passes validation, the 401 error
    [Invalid credentials] in both cases; in every case an error that
    depends on the request body alone, not on which of the two causes
    occurred.  Neither changes the database. *)
Theorem login_failures_identical (E : Env) (b1 b2 : LoginBody) (db1 db2 : Db) :
  (forall u, In u (users db1) -> email u <> l_email b1) ->
  (exists u, In u (users db2) /\ email u = l_email b2) ->
  (forall u, In u (users db2) -> email u = l_email b2 ->
             matchPassword E (l_password b2) (password u) = false) ->
  (validateLogin E b1 = None -> validateLogin E b2 = None ->
   login E b1 db1 = (Next AuthError, db1)
   /\ login E b2 db2 = (Next AuthError, db2)
   /\ fst (login E b1 db1) = fst (login E b2 db2))
  /\ (exists e1 e2,
        login E b1 db1 = (Next e1, db1)
        /\ login E b2 db2 = (Next e2, db2)
        /\ (b1 = b2 -> e1 = e2)).
Proof.
  intros Hunknown Hknown Hwrong.
  pose proof (login_unknown_email E b1 db1 Hunknown) as H1.
  pose proof (login_wrong_password E b2 db2 Hknown Hwrong) as H2.
  split.
  - intros Hv1 Hv2. rewrite Hv1 in H1. rewrite Hv2 in H2.
    rewrite H1, H2. repeat split.
  - eexists. eexists. split; [exact H1|]. split; [exact H2|].
    now intros ->.
Qed.

(** An unknown email, and alice's email with a wrong password. *)
Lemma login_failures_identical_witness :
  login sample_env (mkLoginBody "nobody@example.com" "wonderland") sample_db
  = (Next AuthError, sample_db)
  /\ login sample_env (mkLoginBody "alice@example.com" "looking-glass") sample_db
     = (Next AuthError, sample_db)
  /\ (exists j, fst (login sample_env
                           (mkLoginBody "alice@example.com" "wonderland")
                           sample_db) = Json 200 j).
Proof.
  assert (H : login sample_env (mkLoginBody "nobody@example.com" "wonderland")
                    sample_db = (Next AuthError, sample_db)
              /\ login sample_env (mkLoginBody "alice@example.com" "looking-glass")
                       sample_db = (Next AuthError, sample_db)
              /\ fst (login sample_env
                            (mkLoginBody "nobody@example.com" "wonderland")
                            sample_db)
                 = fst (login sample_env
                              (mkLoginBody "alice@example.com" "looking-glass")
                              sample_db)).
  { apply (login_failures_identical
             sample_env
             (mkLoginBody "nobody@example.com" "wonderland")
             (mkLoginBody "alice@example.com" "looking-glass")
             sample_db sample_db).
    - intros u [<-|[<-|[]]]; discriminate.
    - exists alice. split; [now left | reflexivity].
    - intros u [<-|[<-|[]]]; [reflexivity | discriminate].
    - reflexivity.
    - reflexivity. }
  destruct H as (H1 & H2 & _).
  split; [exact H1|]. split; [exact H2|].
  eexists. reflexivity.
Defined.

Lemma login_success (E : Env) (body : LoginBody) (db db' : Db)
      (status : nat) (j : json) :
  login E body db = (Json status j, db') ->
  exists user,
    In user (users db)
    /\ email user = l_email body
    /\ matchPassword E (l_password body) (password user) = true
    /\ status = 200
    /\ j = auth_body (jwt_sign E (u_id user)) user
    /\ db' = db.
Proof.
  unfold login.
  destruct (validateLogin E body); [discriminate|].
  destruct (findOne _ (users db)) as [u|] eqn:Hf; [|discriminate].
  destruct (matchPassword E (l_password body) (password u)) eqn:Hm;
    simpl; [|discriminate].
  intros H. injection H as <- <- <-.
  apply find_some in Hf. destruct Hf as [Hin Heq].
  apply String.eqb_eq in Heq.
  exists u. repeat split; assumption.
Qed.

(** C9. A success response of [register] or [login] has the members
    [success] and [data], [data] has [token] and [user], and [user] has
    [id], [username], [email] and [role]: there is no member for the
    password.  The strings in it are the token (signed from the identifier
    alone), the username, the email and the role; the response is the same
    whatever password is stored or was sent. *)
Theorem auth_success_hides_password (E : Env) :
  (forall body db status j db',
     register E body db = (Json status j, db') ->
     keys_of j = auth_keys
     /\ ~ In "password" (keys_of j)
     /\ strings_of j = [jwt_sign E (next_oid db); r_username body;
                        r_email body; "user"]
     /\ forall pw',
         validateRegister E (mkRegisterBody (r_username body) (r_email body) pw')
         = None ->
         fst (register E (mkRegisterBody (r_username body) (r_email body) pw') db)
         = Json status j)
  /\ (forall body db status j db',
        login E body db = (Json status j, db') ->
        exists user,
          In user (users db)
          /\ keys_of j = auth_keys
          /\ ~ In "password" (keys_of j)
          /\ strings_of j = [jwt_sign E (u_id user); username user;
                             email user; role user]
          /\ forall pw',
              j = auth_body (jwt_sign E (u_id user))
                            (mkUser (u_id user) (username user) (email user)
                                    pw' (role user))).
Proof.
  assert (Hkeys : ~ In "password" auth_keys).
  { unfold auth_keys. simpl. intuition discriminate. }
  split.
  - intros body db status j db' Hok.
    destruct (register_success E body db db' status j Hok)
      as (Hv & -> & -> & _).
    repeat split; try exact Hkeys.
    intros pw' Hv'. unfold register in *. rewrite Hv'. simpl.
    rewrite Hv in Hok. simpl in Hok.
    destruct (findOne _ (users db)); [discriminate | reflexivity].
  - intros body db status j db' Hok.
    destruct (login_success E body db db' status j Hok)
      as (user & Hin & _ & _ & _ & -> & _).
    exists user. repeat split; try exact Hkeys; assumption.
Qed.

Lemma auth_success_hides_password_witness :
  (exists j db',
     register sample_env (mkRegisterBody "carol" "carol@example.com" "secret")
              sample_db = (Json 201 j, db')
     /\ keys_of j = auth_keys
     /\ strings_of j = ["signed"; "carol"; "carol@example.com"; "user"])
  /\ (exists j,
        login sample_env (mkLoginBody "alice@example.com" "wonderland") sample_db
        = (Json 200 j, sample_db)
        /\ keys_of j = auth_keys
        /\ strings_of j = ["signed"; "alice"; "alice@example.com"; "user"]).
Proof.
  pose proof (auth_success_hides_password sample_env) as [Hreg Hlog].
  split.
  - eexists. eexists. split; [reflexivity|].
    destruct (Hreg (mkRegisterBody "carol" "carol@example.com" "secret")
                   sample_db _ _ _ eq_refl) as (Hk & _ & Hs & _).
    split; [exact Hk | exact Hs].
  - eexists. split; [reflexivity|]. split; reflexivity.
Defined.

(** ** Listing posts *)

Lemma insert_desc_perm (p : Post) (l : list Post) :
  Permutation (insert_desc p l) (p :: l).
Proof.
  induction l as [|q r IH]; simpl; [reflexivity|].
  destruct (createdAt p <? createdAt q); [|reflexivity].
  rewrite IH. apply perm_swap.
Qed.

Lemma sort_desc_perm (l : list Post) : Permutation (sort_desc l) l.
Proof.
  induction l as [|p r IH]; simpl; [reflexivity|].
  rewrite insert_desc_perm. now constructor.
Qed.

Lemma sort_desc_length (l : list Post) :
  List.length (sort_desc l) = List.length l.
Proof. apply Permutation_length, sort_desc_perm. Qed.

Lemma or_default_nonzero (x : option Z) (d : Z) :
  d <> 0%Z -> JS.or_default x d <> 0%Z.
Proof.
  intros Hd. destruct x as [[|v|v]|]; simpl; try assumption; discriminate.
Qed.

Lemma limit_of_nonzero (q : Query) : limit_of q <> 0%Z.
Proof. apply or_default_nonzero. discriminate. Qed.

Lemma page_of_nonzero (q : Query) : page_of q <> 0%Z.
Proof. apply or_default_nonzero. discriminate. Qed.

Lemma In_firstn {A : Type} (n : nat) (l : list A) (x : A) :
  In x (firstn n l) -> In x l.
Proof.
  intros H. rewrite <- (firstn_skipn n l). apply in_or_app. now left.
Qed.

Lemma In_skipn {A : Type} (n : nat) (l : list A) (x : A) :
  In x (skipn n l) -> In x l.
Proof.
  intros H. rewrite <- (firstn_skipn n l). apply in_or_app. now right.
Qed.

Lemma page_slice_In (q : Query) (sel : Post -> bool) (coll : list Post) (p : Post) :
  In p (page_slice q sel coll) -> In p coll /\ sel p = true.
Proof.
  unfold page_slice. intros H.
  apply In_firstn, In_skipn in H.
  apply (Permutation_in _ (sort_desc_perm _)) in H.
  now apply filter_In in H.
Qed.

Lemma page_slice_length (q : Query) (sel : Post -> bool) (coll : list Post) :
  List.length (page_slice q sel coll)
  = Nat.min (Z.to_nat (Z.abs (limit_of q)))
            (List.length (filter sel coll) - Z.to_nat (skip_of q)).
Proof.
  unfold page_slice.
  now rewrite length_firstn, length_skipn, sort_desc_length.
Qed.

Lemma getPosts_answer (E : Env) (q : Query) (db : Db) (sel : Post -> bool) :
  selects E (build_query q) = Some sel ->
  (0 <= skip_of q)%Z ->
  getPosts E q db = (Json 200 (listing q sel db), db).
Proof.
  intros Hsel Hskip. unfold getPosts, countDocuments, find_page.
  rewrite Hsel. simpl.
  fold (page_of q). fold (limit_of q). fold (skip_of q).
  destruct (Z.ltb_spec (skip_of q) 0) as [Hneg|_]; [lia|].
  destruct (Z.eqb_spec (limit_of q) 0) as [Hz|_];
    [now apply limit_of_nonzero in Hz|].
  unfold listing. fold (page_slice q sel (posts db)).
  now rewrite length_map.
Qed.

Lemma getPosts_inv (E : Env) (q : Query) (db db' : Db) (st : nat) (pl : payload) :
  getPosts E q db = (Json st pl, db') ->
  exists sel,
    selects E (build_query q) = Some sel
    /\ (0 <= skip_of q)%Z
    /\ st = 200 /\ pl = listing q sel db /\ db' = db.
Proof.
  intros H.
  destruct (selects E (build_query q)) as [sel|] eqn:Hsel.
  - destruct (Z.ltb_spec (skip_of q) 0) as [Hneg|Hpos].
    + exfalso. revert H. unfold getPosts, countDocuments, find_page.
      rewrite Hsel. simpl.
      fold (page_of q). fold (limit_of q). fold (skip_of q).
      apply Z.ltb_lt in Hneg. rewrite Hneg. discriminate.
    + rewrite (getPosts_answer E q db sel Hsel Hpos) in H.
      injection H as <- <- <-. exists sel. repeat split; assumption.
  - exfalso. revert H. unfold getPosts, countDocuments. rewrite Hsel.
    discriminate.
Qed.

Lemma ceil_div_bounds (a b : Z) :
  (0 < b)%Z ->
  ((JS.ceil_div a b - 1) * b < a <= JS.ceil_div a b * b)%Z.
Proof.
  intros Hb. unfold JS.ceil_div.
  pose proof (Z.div_mod (- a) b ltac:(lia)) as Hdm.
  pose proof (Z.mod_pos_bound (- a) b Hb) as Hm.
  nia.
Qed.

Lemma ceil_div_least (a b k : Z) :
  (0 < b)%Z -> (a <= k * b)%Z -> (JS.ceil_div a b <= k)%Z.
Proof.
  intros Hb Hk. pose proof (ceil_div_bounds a b Hb) as H. nia.
Qed.

Lemma docs_of_views (db : Db) (fs : list string) (cf : option (list string))
      (l : list Post) :
  map doc (map (view db fs cf) l) = l.
Proof.
  rewrite map_map. simpl. apply map_id.
Qed.

(** C2. [getPosts] answers every query the database accepts with the page
    of the sorted selection and with pagination metadata computed from a
    separate count under the same filter: the number of pages is
    ceil(total / limit) (for a positive limit, the least number of pages
    of that size that hold all the matching posts), [hasNext] holds exactly
    when the page is below it (for a positive limit: when posts are left
    after this page), and [hasPrev] exactly when the page is above 1.
    With 13 matching posts and the limit 6, pages 1 and 2 show 6 posts and
    have a next page, page 3 shows 1 post and has none. *)
Theorem getPosts_pagination (E : Env) (q : Query) (db : Db) (sel : Post -> bool) :
  selects E (build_query q) = Some sel ->
  (0 <= skip_of q)%Z ->
  let n := List.length (filter sel (posts db)) in
  let pages := JS.ceil_div (Z.of_nat n) (limit_of q) in
  exists pg data,
    getPosts E q db = (Json 200 (PList (List.length data) n pg data), db)
    /\ countDocuments E (build_query q) (posts db) = Some n
    /\ map doc data = page_slice q sel (posts db)
    /\ current pg = page_of q
    /\ total pg = pages
    /\ (hasNext pg = true <-> (page_of q < pages)%Z)
    /\ (hasPrev pg = true <-> (1 < page_of q)%Z)
    /\ ((0 < limit_of q)%Z ->
        ((pages - 1) * limit_of q < Z.of_nat n <= pages * limit_of q)%Z
        /\ (hasNext pg = true <-> (page_of q * limit_of q < Z.of_nat n)%Z))
    /\ (n = 13 -> limit_of q = 6%Z ->
        (page_of q = 1%Z -> List.length data = 6 /\ hasNext pg = true)
        /\ (page_of q = 2%Z -> List.length data = 6 /\ hasNext pg = true)
        /\ (page_of q = 3%Z -> List.length data = 1 /\ hasNext pg = false)).
Proof.
  intros Hsel Hskip n pages.
  exists (mkPagination (page_of q) pages (page_of q <? pages)%Z
                       (1 <? page_of q)%Z).
  exists (map (view db ["username"; "email"] None) (page_slice q sel (posts db))).
  split.
  { rewrite (getPosts_answer E q db sel Hsel Hskip). unfold listing.
    now rewrite length_map. }
  split.
  { unfold countDocuments. now rewrite Hsel. }
  split; [apply docs_of_views|].
  split; [reflexivity|]. split; [reflexivity|]. simpl.
  split; [apply Z.ltb_lt|]. split; [apply Z.ltb_lt|].
  split.
  - intros Hlim.
    pose proof (ceil_div_bounds (Z.of_nat n) (limit_of q) Hlim) as Hb.
    fold pages in Hb. split; [exact Hb|].
    rewrite Z.ltb_lt. split; intros H; nia.
  - intros Hn Hlim. rewrite length_map, page_slice_length.
    fold n. unfold pages, skip_of. rewrite Hn, Hlim.
    split; [|split]; intros Hp; rewrite Hp; split; reflexivity.
Qed.

(** The three pages of the thirteen published posts, six posts a page. *)
Lemma getPosts_pagination_witness :
  (exists pg data,
     getPosts sample_env (page_query "1") thirteen_db
     = (Json 200 (PList 6 13 pg data), thirteen_db)
     /\ hasNext pg = true /\ hasPrev pg = false /\ total pg = 3%Z)
  /\ (exists pg data,
        getPosts sample_env (page_query "2") thirteen_db
        = (Json 200 (PList 6 13 pg data), thirteen_db)
        /\ hasNext pg = true /\ hasPrev pg = true)
  /\ (exists pg data,
        getPosts sample_env (page_query "3") thirteen_db
        = (Json 200 (PList 1 13 pg data), thirteen_db)
        /\ hasNext pg = false /\ hasPrev pg = true
        /\ map p_id (map doc data) = [1]).
Proof.
  split; [|split].
  - eexists. eexists. split; [reflexivity|]. repeat split.
  - eexists. eexists. split; [reflexivity|]. repeat split.
  - destruct (getPosts_pagination
                sample_env (page_query "3") thirteen_db
                (fun p => true && String.eqb (status p) "published")
                eq_refl ltac:(vm_compute; discriminate))
      as (pg & data & Hget & _ & Hdocs & _ & _ & _ & Hprev & _ & Hcase).
    destruct Hcase as (_ & _ & H3); [reflexivity | reflexivity |].
    destruct (H3 eq_refl) as [Hlen Hnext].
    exists pg, data. rewrite Hlen in Hget.
    split; [exact Hget|]. split; [exact Hnext|].
    split; [now apply Hprev|].
    rewrite Hdocs. reflexivity.
Defined.

(** ** The status filter *)

Lemma selects_status (E : Env) (f : Filter) (sel : Post -> bool) (p : Post) :
  selects E f = Some sel -> sel p = true -> status p = f_status f.
Proof.
  unfold selects. destruct (f_regex f) as [pat|].
  - destruct (Regex.matcher (regex_engine E) pat) as [m|]; simpl;
      [|discriminate].
    intros H Hp. injection H as <-.
    apply andb_true_iff in Hp. destruct Hp as [_ Hp].
    apply andb_true_iff in Hp. destruct Hp as [_ Hp].
    now apply String.eqb_eq.
  - intros H Hp. injection H as <-.
    apply andb_true_iff in Hp. destruct Hp as [_ Hp].
    now apply String.eqb_eq.
Qed.

(** C5 fails for an empty status parameter: the listing of the one-post
    database with [status=] (present, empty) shows the published post. *)
Lemma getPosts_empty_status_lists_published :
  exists pg data,
    getPosts sample_env (mkQuery None None None None (Some "")) one_post_db
    = (Json 200 (PList 1 1 pg data), one_post_db)
    /\ map (fun v => status (doc v)) data = ["published"]
    /\ ~ Forall (fun v => status (doc v) = "") data.
Proof.
  eexists. eexists. split; [reflexivity|]. split; [reflexivity|].
  intros H. inversion H as [|v l Hv Hl]. discriminate Hv.
Qed.

(** C5, amended. [getPosts] answers every query the database accepts, and
    every post it lists has the status [published] when the status
    parameter is absent or empty, and the status of the parameter when
    that is not empty. *)
Theorem getPosts_status_filter (E : Env) (q : Query) (db : Db)
        (sel : Post -> bool) :
  selects E (build_query q) = Some sel ->
  (0 <= skip_of q)%Z ->
  exists n pg data,
    getPosts E q db = (Json 200 (PList (List.length data) n pg data), db)
    /\ (q_status q = None \/ q_status q = Some "" ->
        Forall (fun v => status (doc v) = "published") data)
    /\ (forall st, q_status q = Some st -> st <> "" ->
                   Forall (fun v => status (doc v) = st) data).
Proof.
  intros Hsel Hskip.
  exists (List.length (filter sel (posts db))).
  eexists. eexists. split.
  { rewrite (getPosts_answer E q db sel Hsel Hskip). unfold listing.
    rewrite <- (length_map (view db ["username"; "email"] None)).
    reflexivity. }
  assert (Hall : Forall (fun v => status (doc v) = f_status (build_query q))
                        (map (view db ["username"; "email"] None)
                             (page_slice q sel (posts db)))).
  { apply Forall_forall. intros v Hv. apply in_map_iff in Hv.
    destruct Hv as (p & <- & Hp). simpl.
    apply page_slice_In in Hp. destruct Hp as [_ Hp].
    exact (selects_status E _ sel p Hsel Hp). }
  split.
  - intros [Hq|Hq]; unfold build_query in Hall; rewrite Hq in Hall;
      exact Hall.
  - intros st Hq Hne. unfold build_query in Hall. rewrite Hq in Hall.
    destruct st as [|c r]; [contradiction | exact Hall].
Qed.

(** Drafts are listed on request, published posts by default. *)
Lemma getPosts_status_filter_witness :
  (exists n pg data,
     getPosts sample_env (mkQuery None None None None (Some "draft")) thirteen_db
     = (Json 200 (PList (List.length data) n pg data), thirteen_db)
     /\ Forall (fun v => status (doc v) = "draft") data
     /\ map p_id (map doc data) = [15; 14])
  /\ (exists pg data,
        getPosts sample_env (mkQuery None None None None None) thirteen_db
        = (Json 200 (PList 10 13 pg data), thirteen_db)).
Proof.
  split.
  - destruct (getPosts_status_filter
                sample_env (mkQuery None None None None (Some "draft"))
                thirteen_db
                (fun p => true && String.eqb (status p) "draft")
                eq_refl ltac:(vm_compute; discriminate))
      as (n & pg & data & Hget & _ & Hdraft).
    exists n, pg, data. split; [exact Hget|].
    split; [apply (Hdraft "draft" eq_refl); discriminate|].
    vm_compute in Hget. injection Hget as _ _ _ <-. reflexivity.
  - eexists. eexists. reflexivity.
Defined.

(** ** The search *)

Lemma is_meta_dot (c : ascii) :
  Regex.is_meta c = false -> Ascii.eqb c "." = false.
Proof.
  intros H. destruct (Ascii.eqb_spec c ".") as [->|]; [|reflexivity].
  discriminate H.
Qed.

Lemma compile_plain (s : string) :
  Text.plain s = true -> Regex.compile s = Some (Regex.literal s).
Proof.
  induction s as [|c r IH]; simpl; [reflexivity|].
  intros H. apply andb_true_iff in H. destruct H as [Hc Hr].
  apply negb_true_iff in Hc.
  now rewrite (IH Hr), (is_meta_dot c Hc), Hc.
Qed.

Lemma match_here_literal (s t : string) :
  Regex.match_here (Regex.literal s) t
  = Text.starts_with (Text.lower s) (Text.lower t).
Proof.
  revert t. induction s as [|a r IH]; intros t; simpl; [reflexivity|].
  destruct t as [|c t']; simpl; [reflexivity|].
  now rewrite IH.
Qed.

Lemma search_literal (s t : string) :
  Regex.search (Regex.literal s) t = Text.icontains s t.
Proof.
  unfold Text.icontains.
  induction t as [|c t' IH]; simpl.
  - now rewrite (match_here_literal s "").
  - now rewrite (match_here_literal s (String c t')), IH.
Qed.

Lemma icontains_empty (t : string) : Text.icontains "" t = true.
Proof.
  unfold Text.icontains. simpl. now destruct (Text.lower t).
Qed.

(** On a search string without metacharacters the filter of [getPosts]
    selects by substring. *)
Lemma selects_plain (E : Env) (q : Query) :
  (forall s, q_search q = Some s -> Text.plain s = true) ->
  exists sel,
    selects E (build_query q) = Some sel
    /\ forall p, sel p = listed_by_substring q p.
Proof.
  intros Hplain. unfold selects, listed_by_substring, build_query at 1 2.
  simpl. destruct (q_search q) as [s|] eqn:Hs; simpl.
  - destruct s as [|c r]; simpl.
    + eexists. split; [reflexivity|]. intros p.
      now rewrite !icontains_empty.
    + unfold Regex.matcher.
      rewrite (compile_plain (String c r) (Hplain _ eq_refl)). simpl.
      eexists. split; [reflexivity|]. intros p. simpl.
      change (Regex.atom_matches (Regex.Lit c)) with
        (fun x => Regex.atom_matches (Regex.Lit c) x).
      rewrite <- !search_literal. reflexivity.
  - eexists. split; reflexivity.
Qed.

(** C3 fails for a search string with a metacharacter: the search [h.llo]
    lists the post titled [Hello], which contains that string neither in
    its title nor in its content. *)
Lemma getPosts_search_is_regex :
  exists pg data,
    getPosts sample_env (mkQuery None None (Some "h.llo") None None) one_post_db
    = (Json 200 (PList 1 1 pg data), one_post_db)
    /\ map (fun v => (title (doc v), content (doc v))) data
       = [("Hello", "First post")]
    /\ Text.icontains "h.llo" "Hello" = false
    /\ Text.icontains "h.llo" "First post" = false.
Proof.
  eexists. eexists. repeat split.
Qed.

(** C3, amended. For a search string without metacharacters of regular
    expressions, [getPosts] lists exactly the posts (of the status and the
    category asked for) whose title or content contains the string, the
    case of letters ignored: the count is the number of those posts, the
    page is a slice of them, newest first, every listed post contains the
    string, and when they all fit on the first page every one of them is
    listed. *)
Theorem getPosts_search_plain (E : Env) (q : Query) (db : Db) (s : string) :
  q_search q = Some s ->
  Text.plain s = true ->
  (0 <= skip_of q)%Z ->
  let matching := filter (listed_by_substring q) (posts db) in
  exists pg data,
    getPosts E q db
    = (Json 200 (PList (List.length data) (List.length matching) pg data), db)
    /\ map doc data
       = firstn (Z.to_nat (Z.abs (limit_of q)))
                (skipn (Z.to_nat (skip_of q)) (sort_desc matching))
    /\ (forall v, In v data ->
                  Text.icontains s (title (doc v))
                  || Text.icontains s (content (doc v)) = true)
    /\ (page_of q = 1%Z ->
        (Z.of_nat (List.length matching) <= Z.abs (limit_of q))%Z ->
        forall p, In p (posts db) -> listed_by_substring q p = true ->
                  In p (map doc data)).
Proof.
  intros Hs Hplain Hskip matching.
  destruct (selects_plain E q) as (sel & Hsel & Hext).
  { intros s' Hs'. congruence. }
  assert (Hfilter : filter sel (posts db) = matching).
  { apply filter_ext. exact Hext. }
  exists (mkPagination
            (page_of q)
            (JS.ceil_div (Z.of_nat (List.length matching)) (limit_of q))
            (page_of q <? JS.ceil_div (Z.of_nat (List.length matching))
                                      (limit_of q))%Z
            (1 <? page_of q)%Z).
  exists (map (view db ["username"; "email"] None) (page_slice q sel (posts db))).
  split.
  { rewrite (getPosts_answer E q db sel Hsel Hskip). unfold listing.
    now rewrite length_map, Hfilter. }
  rewrite docs_of_views. unfold page_slice. rewrite Hfilter.
  split; [reflexivity|]. split.
  - intros v Hv. apply in_map_iff in Hv. destruct Hv as (p & <- & Hp).
    simpl. apply page_slice_In in Hp. destruct Hp as [_ Hp].
    unfold listed_by_substring in Hp. rewrite Hs in Hp.
    now apply andb_true_iff in Hp.
  - intros Hpage Hfit p Hin Hp.
    unfold skip_of. rewrite Hpage. simpl.
    rewrite firstn_all2.
    + apply (Permutation_in _ (Permutation_sym (sort_desc_perm matching))).
      apply filter_In. now split.
    + rewrite sort_desc_length. lia.
Qed.

(** The search [hello] lists the post titled [Hello]; the search [help]
    lists nothing. *)
Lemma getPosts_search_plain_witness :
  (exists pg data,
     getPosts sample_env (mkQuery None None (Some "hello") None None) one_post_db
     = (Json 200 (PList (List.length data) 1 pg data), one_post_db)
     /\ map title (map doc data) = ["Hello"])
  /\ (exists pg,
        getPosts sample_env (mkQuery None None (Some "help") None None) one_post_db
        = (Json 200 (PList 0 0 pg []), one_post_db)).
Proof.
  split.
  - destruct (getPosts_search_plain
                sample_env (mkQuery None None (Some "hello") None None)
                one_post_db "hello" eq_refl eq_refl
                ltac:(vm_compute; discriminate))
      as (pg & data & Hget & Hdocs & _).
    exists pg, data. split; [exact Hget|].
    rewrite Hdocs. reflexivity.
  - eexists. reflexivity.
Defined.

(** * Further properties of the controllers *)

(** ** Identifiers *)

Lemma ids_fresh_found (db : Db) (id : nat) (p : Post) :
  ids_fresh db -> findById id (posts db) = Some p ->
  post_ids_below (next_oid db) p.
Proof.
  intros [_ Hall] Hf. apply findById_In in Hf.
  rewrite Forall_forall in Hall. now apply Hall.
Qed.

(** Checks the freshness of the identifiers of a given database. *)
Ltac ids_fresh_by_computation :=
  split; vm_compute; repeat constructor; intros [].

(** ** Creating a post *)

Lemma findById_app_fresh (n : nat) (coll : list Post) (p : Post) :
  Forall (post_ids_below n) coll -> p_id p = n ->
  findById n (coll ++ [p]) = Some p.
Proof.
  unfold findById, findOne. intros Hall Hid.
  induction Hall as [|q r Hq Hr IH]; simpl.
  - now rewrite Hid, Nat.eqb_refl.
  - destruct Hq as [Hlt _].
    destruct (Nat.eqb_spec (p_id q) n) as [Heq|_]; [lia | exact IH].
Qed.

Lemma findById_app_old (j : nat) (coll : list Post) (p : Post) :
  j <> p_id p -> findById j (coll ++ [p]) = findById j coll.
Proof.
  unfold findById, findOne. intros Hne.
  induction coll as [|q r IH]; simpl.
  - destruct (Nat.eqb_spec (p_id p) j) as [Heq|_]; [now symmetry in Heq|].
    reflexivity.
  - destruct (p_id q =? j); [reflexivity | exact IH].
Qed.

(** X2. [createPost] validates the body first (400 with the message of the
    validator, also when the category is missing as well), then looks for
    the category (404 [Category not found]); either way nothing is stored.
    It asks nothing of the role of the caller. *)
Theorem createPost_errors
        (E : Env) (caller : Caller) (body : PostBody) (file : option string)
        (now : nat) (db : Db) :
  (forall msg,
     validatePost E body = Some msg ->
     createPost E caller body file now db = (Next (ValidationError msg), db))
  /\ (validatePost E body = None ->
      findCategoryById (b_category body) (categories db) = None ->
      createPost E caller body file now db = (Next CategoryNotFound, db))
  /\ (validatePost E body = None ->
      (exists c, findCategoryById (b_category body) (categories db) = Some c) ->
      exists out, fst (createPost E caller body file now db) = Json 201 out)
  /\ match fst (createPost E caller body file now db) with
     | Json _ _ => True
     | _ => snd (createPost E caller body file now db) = db
     end.
Proof.
  unfold createPost. split; [|split; [|split]].
  - intros msg Hv. now rewrite Hv.
  - intros Hv Hc. now rewrite Hv, Hc.
  - intros Hv [c Hc]. rewrite Hv, Hc. unfold Post_create.
    match goal with
    | |- context [findById ?i ?l] => destruct (findById i l)
    end; eexists; reflexivity.
  - destruct (validatePost E body); [reflexivity|].
    destruct (findCategoryById _ _); [|reflexivity].
    unfold Post_create.
    match goal with
    | |- context [findById ?i ?l] => destruct (findById i l)
    end; exact I.
Qed.

Lemma createPost_errors_witness :
  createPost sample_env (mkCaller 1 "user")
             (mkPostBody "" "text" 77 None None None None) None 5 sample_db
  = (Next (ValidationError "title is required"), sample_db)
  /\ createPost sample_env (mkCaller 1 "user")
                (mkPostBody "Title" "text" 77 None None None None) None 5 sample_db
     = (Next CategoryNotFound, sample_db).
Proof.
  split.
  - exact (proj1 (createPost_errors sample_env (mkCaller 1 "user")
                    (mkPostBody "" "text" 77 None None None None) None 5
                    sample_db) "title is required" eq_refl).
  - exact (proj1 (proj2 (createPost_errors sample_env (mkCaller 1 "user")
                           (mkPostBody "Title" "text" 77 None None None None)
                           None 5 sample_db)) eq_refl eq_refl).
Defined.

(** X3. A post created on a database with fresh identifiers is stored and
    found again: [createPost] answers 201 with the new post, whose author
    is the caller whatever author the body names, and whose image is the
    uploaded file when one came with the request, whatever image the body
    names; the post is appended, every other identifier is found as
    before, and a [getPost] of the new post right after returns it with
    one view more than it was stored with. *)
Theorem createPost_then_getPost
        (E : Env) (caller : Caller) (body : PostBody) (file : option string)
        (now : nat) (db : Db) (c : Category) :
  ids_fresh db ->
  validatePost E body = None ->
  findCategoryById (b_category body) (categories db) = Some c ->
  exists v db',
    createPost E caller body file now db = (Json 201 (PPost v), db')
    /\ posts db' = posts db ++ [doc v]
    /\ author (doc v) = caller_id caller
    /\ title (doc v) = b_title body /\ content (doc v) = b_content body
    /\ category (doc v) = b_category body
    /\ (forall f, file = Some f ->
                  featuredImage (doc v) = String.append "/uploads/" f)
    /\ findById (p_id (doc v)) (posts db') = Some (doc v)
    /\ (forall j, j <> p_id (doc v) ->
                  findById j (posts db') = findById j (posts db))
    /\ exists v', fst (getPost (p_id (doc v)) db') = Json 200 (PPost v')
                  /\ doc v' = set_views (views (doc v) + 1) (doc v).
Proof.
  intros [Hnd Hall] Hv Hc. unfold createPost. rewrite Hv, Hc.
  unfold Post_create. cbv zeta. cbv beta iota.
  set (post := mkPost (next_oid db) _ _ _ _ _ _ _ _ _ _ _ _).
  assert (Hfound : findById (next_oid db) (posts db ++ [post]) = Some post).
  { now apply findById_app_fresh. }
  simpl. rewrite Hfound.
  eexists. eexists. split; [reflexivity|]. simpl.
  split; [reflexivity|]. split; [reflexivity|].
  split; [now destruct file|]. split; [now destruct file|].
  split; [now destruct file|].
  split.
  { intros f ->. reflexivity. }
  split; [exact Hfound|]. split.
  { intros j Hj. now apply findById_app_old. }
  unfold getPost. simpl. rewrite Hfound. simpl.
  eexists. split; reflexivity.
Qed.

(** Alice sends a body that names bob as author and an image of its own,
    together with a file. *)
Lemma createPost_then_getPost_witness :
  exists v db',
    createPost sample_env (mkCaller 1 "user")
               (mkBody "Hello" "First post" 10 None None (Some "published")
                       (Some "mine.png") (Some 2) None None None None)
               (Some "cat.png") 5 sample_db
    = (Json 201 (PPost v), db')
    /\ author (doc v) = 1
    /\ featuredImage (doc v) = "/uploads/cat.png"
    /\ findById (p_id (doc v)) (posts db') = Some (doc v).
Proof.
  destruct (createPost_then_getPost
              sample_env (mkCaller 1 "user")
              (mkBody "Hello" "First post" 10 None None (Some "published")
                      (Some "mine.png") (Some 2) None None None None)
              (Some "cat.png") 5 sample_db (mkCategory 10 "Tech" "tech"))
    as (v & db' & Hc & _ & Hauthor & _ & _ & _ & Himg & Hf & _).
  - split; constructor.
  - reflexivity.
  - reflexivity.
  - exists v, db'. split; [exact Hc|]. split; [exact Hauthor|].
    split; [exact (Himg "cat.png" eq_refl) | exact Hf].
Defined.

(** ** Deleting a post *)

Lemma findById_deleteOne_same (id : nat) (coll : list Post) :
  NoDup (map p_id coll) -> findById id (deleteOne id coll) = None.
Proof.
  unfold findById, findOne.
  induction coll as [|q r IH]; simpl; intros Hnd; [reflexivity|].
  inversion Hnd as [|x l Hx Hl]; subst.
  destruct (Nat.eqb_spec (p_id q) id) as [Heq|Hne].
  - destruct (find (fun p => p_id p =? id) r) as [p|] eqn:Hf; [|reflexivity].
    exfalso. apply find_some in Hf. destruct Hf as [Hin Hid].
    apply Nat.eqb_eq in Hid. apply Hx. rewrite Heq, <- Hid. now apply in_map.
  - simpl. apply Nat.eqb_neq in Hne. rewrite Hne. now apply IH.
Qed.

Lemma findById_deleteOne_other (id j : nat) (coll : list Post) :
  j <> id -> findById j (deleteOne id coll) = findById j coll.
Proof.
  unfold findById, findOne. intros Hne.
  induction coll as [|q r IH]; simpl; [reflexivity|].
  destruct (Nat.eqb_spec (p_id q) id) as [Heq|Hq]; simpl.
  - destruct (Nat.eqb_spec (p_id q) j) as [Hj|_]; [congruence | reflexivity].
  - destruct (p_id q =? j); [reflexivity | exact IH].
Qed.

Lemma deleteOne_length (id : nat) (coll : list Post) (p : Post) :
  findById id coll = Some p ->
  S (List.length (deleteOne id coll)) = List.length coll.
Proof.
  unfold findById, findOne.
  induction coll as [|q r IH]; simpl; intros Hf; [discriminate|].
  destruct (p_id q =? id); [reflexivity|].
  simpl. now rewrite IH.
Qed.

(** X4. [deletePost] answers 404 when no post has the identifier, whoever
    calls; 403 when the caller is neither the author of the post nor an
    admin; in both cases nothing is deleted.  The author and any admin get
    the answer 200 with an empty object. *)
Theorem deletePost_errors (id : nat) (caller : Caller) (db : Db) :
  (findById id (posts db) = None ->
   deletePost id caller db = (Next PostNotFound, db))
  /\ (forall post,
        findById id (posts db) = Some post ->
        author post <> caller_id caller ->
        caller_role caller <> "admin" ->
        deletePost id caller db = (Next (Forbidden "delete this post"), db))
  /\ (forall post,
        findById id (posts db) = Some post ->
        author post = caller_id caller \/ caller_role caller = "admin" ->
        fst (deletePost id caller db) = Json 200 PEmpty).
Proof.
  unfold deletePost. split; [|split].
  - intros Hf. now rewrite Hf.
  - intros post Hf Hid Hrole. rewrite Hf.
    now rewrite (not_owner_true _ _ Hid Hrole).
  - intros post Hf Hown. rewrite Hf.
    now rewrite (not_owner_false _ _ Hown).
Qed.

Lemma deletePost_errors_witness :
  deletePost 100 (mkCaller 3 "user") one_post_db
  = (Next (Forbidden "delete this post"), one_post_db)
  /\ fst (deletePost 100 (mkCaller 2 "admin") one_post_db) = Json 200 PEmpty
  /\ deletePost 5 (mkCaller 2 "admin") one_post_db
     = (Next PostNotFound, one_post_db).
Proof.
  pose proof (deletePost_errors 100 (mkCaller 3 "user") one_post_db)
    as (_ & Hforbidden & _).
  split; [|split; reflexivity].
  apply (Hforbidden (mkPost 100 "Hello" "First post" "" "" 1 10 [] "published"
                            0 [] [] 5)).
  - reflexivity.
  - simpl. lia.
  - discriminate.
Defined.

(** X5. After its author or an admin deleted a post of a database with
    fresh identifiers, the post is gone: its identifier finds nothing, a
    [getPost] or a second [deletePost] of it answers 404, there is one post
    less, every other post is found as before, and users, categories and
    the counter are as before. *)
Theorem deletePost_removes (id : nat) (caller : Caller) (db : Db) (post : Post) :
  ids_fresh db ->
  findById id (posts db) = Some post ->
  author post = caller_id caller \/ caller_role caller = "admin" ->
  let db' := snd (deletePost id caller db) in
  findById id (posts db') = None
  /\ getPost id db' = (Next PostNotFound, db')
  /\ (forall caller', deletePost id caller' db' = (Next PostNotFound, db'))
  /\ S (List.length (posts db')) = List.length (posts db)
  /\ (forall j, j <> id -> findById j (posts db') = findById j (posts db))
  /\ users db' = users db /\ categories db' = categories db
  /\ next_oid db' = next_oid db.
Proof.
  intros [Hnd _] Hf Hown db'.
  assert (Hdb' : db' = with_posts (deleteOne id (posts db)) db).
  { unfold db', deletePost. rewrite Hf.
    now rewrite (not_owner_false _ _ Hown). }
  assert (Hgone : findById id (posts db') = None).
  { rewrite Hdb'. simpl. now apply findById_deleteOne_same. }
  split; [exact Hgone|]. split.
  { unfold getPost. now rewrite Hgone. }
  split.
  { intros caller'. unfold deletePost. now rewrite Hgone. }
  rewrite Hdb'. simpl. split; [now apply (deleteOne_length id _ post)|].
  split; [|repeat split].
  intros j Hj. now apply findById_deleteOne_other.
Qed.

Lemma deletePost_removes_witness :
  posts (snd (deletePost 100 (mkCaller 1 "user") liked_db)) = []
  /\ getPost 100 (snd (deletePost 100 (mkCaller 1 "user") liked_db))
     = (Next PostNotFound, snd (deletePost 100 (mkCaller 1 "user") liked_db)).
Proof.
  split; [reflexivity|].
  refine (proj1 (proj2 (deletePost_removes
                          100 (mkCaller 1 "user") liked_db
                          (mkPost 100 "Hello" "First post" "" "" 1 10 []
                                  "published" 0 [] [2] 5)
                          _ eq_refl (or_introl eq_refl)))).
  ids_fresh_by_computation.
Defined.

(** ** Comments *)

(** X7. [addComment] answers 404 when no post has the identifier and then
    stores nothing.  On a stored post any caller may comment: the comment,
    with the caller as author, the text of the request and a fresh
    identifier, goes to the end of the comments of the post; the answer is
    201 with all comments of the post, the new one last; nothing else of
    the post and no other post changes. *)
Theorem addComment_appends (id : nat) (caller : Caller) (text : string) (db : Db) :
  (findById id (posts db) = None ->
   addComment id caller text db = (Next PostNotFound, db))
  /\ (forall post,
        findById id (posts db) = Some post ->
        let comment := mkComment (next_oid db) (caller_id caller) text in
        exists data db',
          addComment id caller text db = (Json 201 (PComments data), db')
          /\ map fst data = comments post ++ [comment]
          /\ findById id (posts db')
             = Some (set_comments (comments post ++ [comment]) post)
          /\ (forall j, j <> id -> findById j (posts db') = findById j (posts db))
          /\ List.length (posts db') = List.length (posts db)
          /\ users db' = users db /\ categories db' = categories db
          /\ next_oid db' = S (next_oid db)).
Proof.
  unfold addComment. split.
  - intros Hf. now rewrite Hf.
  - intros post Hf. rewrite Hf.
    pose proof (findById_id _ _ _ Hf) as Hid.
    set (comment := mkComment (next_oid db) (caller_id caller) text).
    set (post' := set_comments (JS.push (comments post) comment) post).
    assert (Hf' : findById id (save post' (posts db)) = Some post').
    { apply (findById_save_same id (posts db) post); [exact Hf | exact Hid]. }
    cbv zeta. simpl. rewrite Hf'.
    eexists. eexists. split; [reflexivity|]. simpl.
    split; [rewrite map_map; simpl; apply map_id|].
    split; [exact Hf'|]. split.
    { intros j Hj. apply findById_save_other. simpl. congruence. }
    split; [apply save_length | repeat split].
Qed.

Lemma addComment_appends_witness :
  exists data db',
    addComment 100 (mkCaller 2 "admin") "Nice" one_post_db
    = (Json 201 (PComments data), db')
    /\ map fst data = [mkComment 101 2 "Nice"]
    /\ next_oid db' = 102.
Proof.
  destruct (proj2 (addComment_appends 100 (mkCaller 2 "admin") "Nice" one_post_db)
                  (mkPost 100 "Hello" "First post" "" "" 1 10 [] "published"
                          0 [] [] 5)
                  eq_refl)
    as (data & db' & Hadd & Hdata & _ & _ & _ & _ & _ & Hn).
  exists data, db'. split; [exact Hadd|]. split; [exact Hdata | exact Hn].
Defined.

(** X8. [deleteComment] answers 404 [Post not found] without the post, 404
    [Comment not found] when the post has no comment of that identifier,
    and 403 when the caller is neither the author of the comment nor an
    admin, the author of the post included; a refused request changes
    nothing. *)
Theorem deleteComment_errors (id cid : nat) (caller : Caller) (db : Db) :
  (findById id (posts db) = None ->
   deleteComment id cid caller db = (Next PostNotFound, db))
  /\ (forall post,
        findById id (posts db) = Some post ->
        comment_by_id cid (comments post) = None ->
        deleteComment id cid caller db = (Next CommentNotFound, db))
  /\ (forall post comment,
        findById id (posts db) = Some post ->
        comment_by_id cid (comments post) = Some comment ->
        c_author comment <> caller_id caller ->
        caller_role caller <> "admin" ->
        deleteComment id cid caller db
        = (Next (Forbidden "delete this comment"), db))
  /\ match fst (deleteComment id cid caller db) with
     | Json _ _ => True
     | _ => snd (deleteComment id cid caller db) = db
     end.
Proof.
  unfold deleteComment. split; [|split; [|split]].
  - intros Hf. now rewrite Hf.
  - intros post Hf Hc. now rewrite Hf, Hc.
  - intros post comment Hf Hc Hid Hrole. rewrite Hf, Hc.
    now rewrite (not_owner_true _ _ Hid Hrole).
  - destruct (findById id (posts db)) as [post|]; [|reflexivity].
    destruct (comment_by_id cid (comments post)) as [cm|]; [|reflexivity].
    destruct (not_owner _ _); [reflexivity | exact I].
Qed.

(** Bob commented on alice's post; alice, who is no admin, may not delete
    the comment. *)
Lemma deleteComment_errors_witness :
  deleteComment 100 101 (mkCaller 1 "user")
                (snd (addComment 100 (mkCaller 2 "admin") "Nice" one_post_db))
  = (Next (Forbidden "delete this comment"),
     snd (addComment 100 (mkCaller 2 "admin") "Nice" one_post_db))
  /\ deleteComment 100 7 (mkCaller 1 "user") one_post_db
     = (Next CommentNotFound, one_post_db).
Proof.
  split.
  - apply (proj1 (proj2 (proj2 (deleteComment_errors
                                  100 101 (mkCaller 1 "user")
                                  (snd (addComment 100 (mkCaller 2 "admin") "Nice"
                                                   one_post_db)))))
                 (mkPost 100 "Hello" "First post" "" "" 1 10 [] "published" 0
                         [mkComment 101 2 "Nice"] [] 5)
                 (mkComment 101 2 "Nice")).
    + reflexivity.
    + reflexivity.
    + simpl. lia.
    + discriminate.
  - reflexivity.
Defined.

Lemma filter_all {A : Type} (f : A -> bool) (l : list A) :
  (forall x, In x l -> f x = true) -> filter f l = l.
Proof.
  induction l as [|a r IH]; simpl; intros H; [reflexivity|].
  rewrite (H a (or_introl eq_refl)). f_equal. apply IH.
  intros x Hx. apply H. now right.
Qed.

Lemma remove_comment_filter (cid : nat) (cs : list Comment) :
  NoDup (map c_id cs) ->
  remove_comment cid cs = filter (fun c => negb (c_id c =? cid)) cs.
Proof.
  induction cs as [|d r IH]; simpl; intros Hnd; [reflexivity|].
  inversion Hnd as [|x l Hx Hl]; subst.
  destruct (Nat.eqb_spec (c_id d) cid) as [Heq|Hne]; simpl.
  - symmetry. apply filter_all. intros c Hc.
    apply negb_true_iff, Nat.eqb_neq. intros Hcid. apply Hx.
    rewrite Heq, <- Hcid. now apply in_map.
  - now rewrite IH.
Qed.

Lemma comment_by_id_removed (cid : nat) (cs : list Comment) :
  NoDup (map c_id cs) -> comment_by_id cid (remove_comment cid cs) = None.
Proof.
  intros Hnd. rewrite (remove_comment_filter cid cs Hnd).
  unfold comment_by_id.
  destruct (find _ _) as [c|] eqn:Hf; [|reflexivity].
  apply find_some in Hf. destruct Hf as [Hin Hid].
  apply filter_In in Hin. destruct Hin as [_ Hne].
  rewrite Hid in Hne. discriminate.
Qed.

Lemma remove_comment_length (cid : nat) (cs : list Comment) (c : Comment) :
  comment_by_id cid cs = Some c ->
  S (List.length (remove_comment cid cs)) = List.length cs.
Proof.
  unfold comment_by_id.
  induction cs as [|d r IH]; simpl; intros Hf; [discriminate|].
  destruct (c_id d =? cid); [reflexivity|].
  simpl. now rewrite IH.
Qed.

(** X9. When its author or an admin deletes a comment of a post, on a
    database with fresh identifiers, exactly that comment goes: the other
    comments of the post stay, in their order, the comment is not found
    any more (a second [deleteComment] answers 404 [Comment not found]),
    and nothing else of the post, nor any other post, changes. *)
Theorem deleteComment_removes
        (id cid : nat) (caller : Caller) (db : Db) (post : Post) (comment : Comment) :
  ids_fresh db ->
  findById id (posts db) = Some post ->
  comment_by_id cid (comments post) = Some comment ->
  c_author comment = caller_id caller \/ caller_role caller = "admin" ->
  exists post' db',
    deleteComment id cid caller db = (Json 200 PEmpty, db')
    /\ findById id (posts db') = Some post'
    /\ comments post' = filter (fun c => negb (c_id c =? cid)) (comments post)
    /\ S (List.length (comments post')) = List.length (comments post)
    /\ post' = set_comments (comments post') post
    /\ (forall caller',
          deleteComment id cid caller' db' = (Next CommentNotFound, db'))
    /\ (forall j, j <> id -> findById j (posts db') = findById j (posts db)).
Proof.
  intros Hfresh Hf Hc Hown.
  destruct (ids_fresh_found db id post Hfresh Hf) as (_ & _ & Hnd).
  pose proof (findById_id _ _ _ Hf) as Hid.
  set (post' := set_comments (remove_comment cid (comments post)) post).
  assert (Hf' : findById id (save post' (posts db)) = Some post').
  { apply (findById_save_same id (posts db) post); [exact Hf | exact Hid]. }
  exists post', (with_posts (save post' (posts db)) db).
  split.
  { unfold deleteComment. rewrite Hf, Hc.
    now rewrite (not_owner_false _ _ Hown). }
  simpl. split; [exact Hf'|].
  split; [now apply remove_comment_filter|].
  split; [now apply (remove_comment_length cid _ comment)|].
  split; [reflexivity|]. split.
  - intros caller'. unfold deleteComment. simpl. rewrite Hf'. simpl.
    now rewrite (comment_by_id_removed cid (comments post) Hnd).
  - intros j Hj. apply findById_save_other. simpl. congruence.
Qed.

Lemma save_save_restore (id : nat) (coll : list Post) (p p' : Post) :
  findById id coll = Some p -> p_id p' = id -> save p (save p' coll) = coll.
Proof.
  unfold findById, findOne. intros Hf Hid.
  induction coll as [|q r IH]; simpl in *; [reflexivity|].
  rewrite Hid.
  destruct (Nat.eqb_spec (p_id q) id) as [Hq|Hq]; simpl.
  - injection Hf as <-. now rewrite Hid, Hq, Nat.eqb_refl.
  - assert (Hp : p_id p = id).
    { apply find_some in Hf. now apply Nat.eqb_eq. }
    rewrite Hp. apply Nat.eqb_neq in Hq. rewrite Hq. f_equal. now apply IH.
Qed.

Lemma remove_comment_last (n : nat) (cs : list Comment) (c : Comment) :
  Forall (fun d => c_id d < n) cs -> c_id c = n ->
  remove_comment n (cs ++ [c]) = cs.
Proof.
  intros Hall Hid. induction Hall as [|d r Hd Hr IH]; simpl.
  - now rewrite Hid, Nat.eqb_refl.
  - destruct (Nat.eqb_spec (c_id d) n) as [Heq|_]; [lia|]. now rewrite IH.
Qed.

Lemma comment_by_id_last (n : nat) (cs : list Comment) (c : Comment) :
  Forall (fun d => c_id d < n) cs -> c_id c = n ->
  comment_by_id n (cs ++ [c]) = Some c.
Proof.
  unfold comment_by_id. intros Hall Hid.
  induction Hall as [|d r Hd Hr IH]; simpl.
  - now rewrite Hid, Nat.eqb_refl.
  - destruct (Nat.eqb_spec (c_id d) n) as [Heq|_]; [lia | exact IH].
Qed.

(** X10. A comment can be taken back: on a database with fresh identifiers,
    [addComment] followed by the [deleteComment] of the new comment by the
    same caller succeeds and leaves the posts exactly as they were before
    the comment; of the whole database only the counter of identifiers has
    moved on. *)
Theorem addComment_then_deleteComment
        (id : nat) (caller : Caller) (text : string) (db : Db) (post : Post) :
  ids_fresh db ->
  findById id (posts db) = Some post ->
  let db1 := snd (addComment id caller text db) in
  deleteComment id (next_oid db) caller db1
  = (Json 200 PEmpty,
     mkDb (users db) (categories db) (posts db) (S (next_oid db))).
Proof.
  intros Hfresh Hf db1.
  destruct (ids_fresh_found db id post Hfresh Hf) as (_ & Hcs & _).
  destruct (proj2 (addComment_appends id caller text db) post Hf)
    as (data & db' & Hadd & _ & Hf1 & _ & _ & Hus & Hcats & Hn).
  assert (Hdb1 : db1 = mkDb (users db) (categories db)
                           (save (set_comments
                                    (comments post
                                     ++ [mkComment (next_oid db) (caller_id caller)
                                                   text]) post)
                                 (posts db))
                           (S (next_oid db))).
  { unfold db1, addComment. rewrite Hf. cbv zeta.
    match goal with
    | |- context [match findById ?i ?c with _ => _ end] =>
        destruct (findById i c)
    end; reflexivity. }
  assert (Hf1' : findById id (posts db1)
                 = Some (set_comments
                           (comments post
                            ++ [mkComment (next_oid db) (caller_id caller) text])
                           post)).
  { unfold db1. rewrite Hadd. exact Hf1. }
  set (comment := mkComment (next_oid db) (caller_id caller) text) in *.
  unfold deleteComment. rewrite Hf1'. simpl.
  rewrite (comment_by_id_last (next_oid db) (comments post) comment Hcs eq_refl).
  simpl. unfold not_owner. simpl. rewrite Nat.eqb_refl. simpl.
  rewrite (remove_comment_last (next_oid db) (comments post) comment Hcs eq_refl).
  rewrite Hdb1. unfold with_posts. simpl. f_equal. f_equal.
  match goal with
  | |- save ?p (save _ _) = _ => replace p with post by (now destruct post)
  end.
  apply (save_save_restore id); [exact Hf|].
  simpl. exact (findById_id _ _ _ Hf).
Qed.

Lemma addComment_then_deleteComment_witness :
  deleteComment 100 101 (mkCaller 1 "user")
                (snd (addComment 100 (mkCaller 1 "user") "Oops" liked_db))
  = (Json 200 PEmpty,
     mkDb (users liked_db) (categories liked_db) (posts liked_db) 102).
Proof.
  refine (addComment_then_deleteComment
            100 (mkCaller 1 "user") "Oops" liked_db
            (mkPost 100 "Hello" "First post" "" "" 1 10 [] "published" 0 []
                    [2] 5)
            _ eq_refl).
  ids_fresh_by_computation.
Defined.

Lemma deleteComment_removes_witness :
  exists post' db',
    deleteComment 100 101 (mkCaller 2 "admin")
                  (snd (addComment 100 (mkCaller 2 "admin") "Nice" liked_db))
    = (Json 200 PEmpty, db')
    /\ findById 100 (posts db') = Some post'
    /\ comments post' = [].
Proof.
  destruct (deleteComment_removes
              100 101 (mkCaller 2 "admin")
              (snd (addComment 100 (mkCaller 2 "admin") "Nice" liked_db))
              (mkPost 100 "Hello" "First post" "" "" 1 10 [] "published" 0
                      [mkComment 101 2 "Nice"] [2] 5)
              (mkComment 101 2 "Nice"))
    as (post' & db' & Hdel & Hf & Hcs & _).
  - ids_fresh_by_computation.
  - reflexivity.
  - reflexivity.
  - now left.
  - exists post', db'. split; [exact Hdel|]. split; [exact Hf | exact Hcs].
Defined.

(** ** The order and the pages of a listing *)

Lemma insert_desc_In (p q : Post) (l : list Post) :
  In q (insert_desc p l) -> q = p \/ In q l.
Proof.
  intros H. apply (Permutation_in _ (insert_desc_perm p l)) in H.
  destruct H as [<-|H]; [now left | now right].
Qed.

Lemma insert_desc_sorted (p : Post) (l : list Post) :
  StronglySorted newer_first l -> StronglySorted newer_first (insert_desc p l).
Proof.
  induction 1 as [|q r Hr IH Hq]; simpl.
  - constructor; constructor.
  - destruct (Nat.ltb_spec (createdAt p) (createdAt q)) as [Hlt|Hge].
    + constructor; [exact IH|].
      apply Forall_forall. intros x Hx.
      apply insert_desc_In in Hx. destruct Hx as [->|Hx].
      * unfold newer_first. lia.
      * rewrite Forall_forall in Hq. now apply Hq.
    + constructor; [now constructor|].
      constructor; [exact Hge|].
      eapply Forall_impl; [|exact Hq].
      unfold newer_first. intros x Hx. simpl in Hx. lia.
Qed.

Lemma sort_desc_sorted (l : list Post) : StronglySorted newer_first (sort_desc l).
Proof.
  induction l as [|p r IH]; simpl; [constructor|].
  now apply insert_desc_sorted.
Qed.

Lemma skipn_sorted {A : Type} (R : A -> A -> Prop) (n : nat) (l : list A) :
  StronglySorted R l -> StronglySorted R (skipn n l).
Proof.
  revert l. induction n as [|n IH]; intros l Hs; [exact Hs|].
  destruct l as [|a r]; [exact Hs|].
  simpl. apply IH. now apply StronglySorted_inv in Hs.
Qed.

Lemma firstn_sorted {A : Type} (R : A -> A -> Prop) (n : nat) (l : list A) :
  StronglySorted R l -> StronglySorted R (firstn n l).
Proof.
  revert l. induction n as [|n IH]; intros l Hs; [constructor|].
  destruct l as [|a r]; [constructor|].
  simpl. apply StronglySorted_inv in Hs. destruct Hs as [Hr Ha].
  constructor; [now apply IH|].
  apply Forall_forall. intros x Hx. apply In_firstn in Hx.
  rewrite Forall_forall in Ha. now apply Ha.
Qed.

(** X11. Every listing is ordered newest first, whatever the order the
    posts were stored in: in the answer of [getPosts] to a query the
    database accepts no post comes before a post created later; and every
    listed post is a stored post the filter selects. *)
Theorem getPosts_newest_first (E : Env) (q : Query) (db : Db) (sel : Post -> bool) :
  selects E (build_query q) = Some sel ->
  (0 <= skip_of q)%Z ->
  exists n pg data,
    getPosts E q db = (Json 200 (PList (List.length data) n pg data), db)
    /\ StronglySorted newer_first (map doc data)
    /\ (forall i j v w,
          i < j -> nth_error data i = Some v -> nth_error data j = Some w ->
          createdAt (doc w) <= createdAt (doc v))
    /\ (forall v, In v data -> In (doc v) (posts db) /\ sel (doc v) = true).
Proof.
  intros Hsel Hskip.
  exists (List.length (filter sel (posts db))).
  eexists. exists (map (view db ["username"; "email"] None)
                       (page_slice q sel (posts db))).
  split.
  { rewrite (getPosts_answer E q db sel Hsel Hskip). unfold listing.
    now rewrite length_map. }
  rewrite docs_of_views.
  assert (Hsorted : StronglySorted newer_first (page_slice q sel (posts db))).
  { unfold page_slice. apply firstn_sorted, skipn_sorted, sort_desc_sorted. }
  split; [exact Hsorted|]. split.
  - intros i j v w Hij Hv Hw.
    rewrite nth_error_map in Hv, Hw.
    destruct (nth_error (page_slice q sel (posts db)) i) as [p|] eqn:Hp;
      [|discriminate].
    destruct (nth_error (page_slice q sel (posts db)) j) as [p'|] eqn:Hp';
      [|discriminate].
    injection Hv as <-. injection Hw as <-. simpl.
    clear - Hsorted Hij Hp Hp'.
    revert i j Hij Hp Hp'.
    induction Hsorted as [|a r Hr IH Ha]; intros i j Hij Hp Hp'.
    + destruct i; discriminate.
    + destruct j as [|j]; [lia|]. simpl in Hp'.
      destruct i as [|i]; simpl in Hp.
      * injection Hp as <-. apply nth_error_In in Hp'.
        rewrite Forall_forall in Ha. exact (Ha p' Hp').
      * apply (IH i j); [lia | exact Hp | exact Hp'].
  - intros v Hv. apply in_map_iff in Hv. destruct Hv as (p & <- & Hp).
    simpl. now apply page_slice_In in Hp.
Qed.

(** The thirteen published posts were stored oldest first and are listed
    newest first. *)
Lemma getPosts_newest_first_witness :
  exists n pg data,
    getPosts sample_env (page_query "1") thirteen_db
    = (Json 200 (PList (List.length data) n pg data), thirteen_db)
    /\ StronglySorted newer_first (map doc data)
    /\ map createdAt (map doc data) = [13; 12; 11; 10; 9; 8].
Proof.
  destruct (getPosts_newest_first
              sample_env (page_query "1") thirteen_db
              (fun p => true && String.eqb (status p) "published")
              eq_refl ltac:(vm_compute; discriminate))
    as (n & pg & data & Hget & Hsorted & _).
  exists n, pg, data. split; [exact Hget|]. split; [exact Hsorted|].
  vm_compute in Hget. injection Hget as _ _ _ <-. reflexivity.
Defined.

(** X13. How full a page is: for a positive limit L and a page P of at
    least 1, the page holds min(L, total - (P - 1) * L) posts, never more
    than L; it is full whenever [hasNext] is set; it is empty exactly when
    the pages before it hold all the matching posts already, and then
    [hasNext] is not set. *)
Theorem getPosts_page_size
        (E : Env) (q : Query) (db : Db) (sel : Post -> bool) :
  selects E (build_query q) = Some sel ->
  (0 < limit_of q)%Z ->
  (1 <= page_of q)%Z ->
  let L := Z.to_nat (limit_of q) in
  let P := Z.to_nat (page_of q) in
  let n := List.length (filter sel (posts db)) in
  exists pg data,
    getPosts E q db = (Json 200 (PList (List.length data) n pg data), db)
    /\ List.length data = Nat.min L (n - (P - 1) * L)
    /\ List.length data <= L
    /\ (hasNext pg = true -> List.length data = L)
    /\ (data = [] <-> n <= (P - 1) * L)
    /\ (data = [] -> hasNext pg = false).
Proof.
  intros Hsel Hlim Hpage L P n.
  assert (Hskip : (0 <= skip_of q)%Z) by (unfold skip_of; nia).
  eexists. exists (map (view db ["username"; "email"] None)
                       (page_slice q sel (posts db))).
  split.
  { rewrite (getPosts_answer E q db sel Hsel Hskip). unfold listing.
    now rewrite length_map. }
  assert (Hlen : List.length (map (view db ["username"; "email"] None)
                                  (page_slice q sel (posts db)))
                 = Nat.min L (n - (P - 1) * L)).
  { rewrite length_map, page_slice_length. fold n.
    replace (Z.to_nat (Z.abs (limit_of q))) with L by (unfold L; lia).
    replace (Z.to_nat (skip_of q)) with ((P - 1) * L)
      by (unfold skip_of, P, L; nia).
    reflexivity. }
  pose proof (ceil_div_bounds (Z.of_nat n) (limit_of q) Hlim) as Hb.
  assert (HL : Z.of_nat L = limit_of q) by (unfold L; lia).
  assert (HP : Z.of_nat P = page_of q) by (unfold P; lia).
  assert (Hnext : (page_of q <? JS.ceil_div (Z.of_nat n) (limit_of q))%Z = true
                  -> P * L < n).
  { intros H. apply Z.ltb_lt in H. nia. }
  assert (Hempty : map (view db ["username"; "email"] None)
                       (page_slice q sel (posts db)) = []
                   <-> n <= (P - 1) * L).
  { rewrite <- length_zero_iff_nil, Hlen. lia. }
  split; [exact Hlen|]. split; [rewrite Hlen; lia|]. split.
  { simpl. intros H. apply Hnext in H. rewrite Hlen. nia. }
  split; [exact Hempty|].
  simpl. intros H. apply Hempty in H.
  apply not_true_is_false. intros Hn. apply Hnext in Hn. nia.
Qed.

(** Page 4 of the thirteen posts, six a page, is empty. *)
Lemma getPosts_page_size_witness :
  exists pg,
    getPosts sample_env (page_query "4") thirteen_db
    = (Json 200 (PList 0 13 pg []), thirteen_db)
    /\ hasNext pg = false.
Proof.
  destruct (getPosts_page_size
              sample_env (page_query "4") thirteen_db
              (fun p => true && String.eqb (status p) "published")
              eq_refl eq_refl ltac:(vm_compute; discriminate))
    as (pg & data & Hget & _ & _ & _ & Hempty & Hnext).
  assert (Hdata : data = []).
  { apply Hempty. vm_compute. lia. }
  exists pg. rewrite Hdata in Hget. split; [exact Hget | now apply Hnext].
Defined.

(** ** Accounts *)

Lemma find_app_last {A : Type} (f : A -> bool) (l : list A) (x : A) :
  find f l = None -> f x = true -> find f (l ++ [x]) = Some x.
Proof.
  induction l as [|a r IH]; simpl; intros Hnone Hx.
  - now rewrite Hx.
  - destruct (f a); [discriminate | now apply IH].
Qed.

(** X14. Who registered can log in: after a successful [register], a
    [login] with the same email and password, on a validator that accepts
    them and a password check that accepts a password against its own
    hash, answers 200 with the identifier, username, email and role of the
    new user, and changes nothing.  The stored password is the hash, not
    the password sent. *)
Theorem register_then_login
        (E : Env) (body : RegisterBody) (db db1 : Db) (status : nat) (j : json) :
  register E body db = (Json status j, db1) ->
  validateLogin E (mkLoginBody (r_email body) (r_password body)) = None ->
  matchPassword E (r_password body) (hash_password E (r_password body)) = true ->
  let user := mkUser (next_oid db) (r_username body) (r_email body)
                     (hash_password E (r_password body)) "user" in
  users db1 = users db ++ [user]
  /\ exists token,
      login E (mkLoginBody (r_email body) (r_password body)) db1
      = (Json 200 (auth_body token user), db1).
Proof.
  intros Hreg Hv Hmatch user.
  destruct (register_success E body db db1 status j Hreg) as (_ & _ & _ & Hus).
  fold user in Hus. split; [exact Hus|].
  assert (Hnone : find (fun u => String.eqb (email u) (r_email body)) (users db)
                  = None).
  { unfold register in Hreg.
    destruct (validateRegister E body); [discriminate|].
    destruct (findOne _ (users db)) as [u|] eqn:Hf; [discriminate|].
    unfold findOne in Hf.
    destruct (find (fun u => String.eqb (email u) (r_email body)) (users db))
      as [u|] eqn:Hu; [|reflexivity].
    apply find_some in Hu. destruct Hu as [Hin Heq].
    pose proof (find_none _ _ Hf u Hin) as Hno. simpl in Hno.
    rewrite Heq in Hno. discriminate. }
  exists (generateToken E (next_oid db)).
  unfold login. rewrite Hv. simpl. unfold findOne. rewrite Hus.
  rewrite (find_app_last _ (users db) user Hnone (String.eqb_refl _)).
  simpl. now rewrite Hmatch.
Qed.

Lemma register_then_login_witness :
  exists token,
    login sample_env (mkLoginBody "carol@example.com" "secret")
          (snd (register sample_env
                         (mkRegisterBody "carol" "carol@example.com" "secret")
                         sample_db))
    = (Json 200 (auth_body token
                           (mkUser 100 "carol" "carol@example.com"
                                   "hashed:secret" "user")),
       snd (register sample_env
                     (mkRegisterBody "carol" "carol@example.com" "secret")
                     sample_db)).
Proof.
  exact (proj2 (register_then_login
                  sample_env (mkRegisterBody "carol" "carol@example.com" "secret")
                  sample_db
                  (snd (register sample_env
                                 (mkRegisterBody "carol" "carol@example.com"
                                                 "secret")
                                 sample_db))
                  201
                  (auth_body "signed"
                             (mkUser 100 "carol" "carol@example.com"
                                     "hashed:secret" "user"))
                  eq_refl eq_refl eq_refl)).
Defined.

Lemma NoDup_map_same {A B : Type} (f : A -> B) (l : list A) (x y : A) :
  NoDup (map f l) -> In x l -> In y l -> f x = f y -> x = y.
Proof.
  induction l as [|a r IH]; simpl; intros Hnd Hx Hy Hf; [contradiction|].
  inversion Hnd as [|b l' Hb Hl]; subst.
  destruct Hx as [->|Hx], Hy as [->|Hy].
  - reflexivity.
  - exfalso. apply Hb. rewrite Hf. now apply in_map.
  - exfalso. apply Hb. rewrite <- Hf. now apply in_map.
  - now apply IH.
Qed.

Lemma NoDup_map_app_new {A B : Type} (f : A -> B) (l : list A) (x : A) :
  NoDup (map f l) -> (forall a, In a l -> f a <> f x) ->
  NoDup (map f (l ++ [x])).
Proof.
  intros Hnd Hnew. rewrite map_app. simpl.
  apply NoDup_app; [exact Hnd | repeat constructor; intros [] |].
  intros b Hb [<-|[]]. apply in_map_iff in Hb.
  destruct Hb as (a & Ha & Hin). exact (Hnew a Hin Ha).
Qed.

Lemma register_users_unique (E : Env) (body : RegisterBody) (db : Db) :
  users_unique db -> users_unique (snd (register E body db)).
Proof.
  intros [Hmail Hname]. unfold register.
  destruct (validateRegister E body); [now split|].
  destruct (findOne _ (users db)) as [u|] eqn:Hf; [now split|].
  unfold findOne in Hf. simpl.
  split; apply NoDup_map_app_new; try assumption; intros a Ha Heq;
    pose proof (find_none _ _ Hf a Ha) as Hno; simpl in Hno;
    apply orb_false_iff in Hno; destruct Hno as [Hm Hn]; simpl in Heq.
  - rewrite Heq, String.eqb_refl in Hm. discriminate.
  - rewrite Heq, String.eqb_refl in Hn. discriminate.
Qed.

Lemma handle_users (E : Env) (r : request) (db : Db) :
  (forall body, r <> Register body) -> users (handle E r db) = users db.
Proof.
  intros Hr.
  destruct r as [body|body|q|id|caller body file now|id caller body file
                |id caller|id caller text|id cid caller|id caller]; simpl.
  - now destruct (Hr body).
  - now rewrite login_db.
  - now rewrite getPosts_db.
  - unfold getPost. now destruct (findById id (posts db)).
  - unfold createPost. destruct (validatePost E body); [reflexivity|].
    destruct (findCategoryById _ _); [|reflexivity].
    unfold Post_create.
    match goal with
    | |- context [findById ?i ?c] => destruct (findById i c)
    end; reflexivity.
  - unfold updatePost. destruct (findById id (posts db)); [|reflexivity].
    destruct (not_owner _ _); [reflexivity|].
    now destruct (validatePost E body).
  - unfold deletePost. destruct (findById id (posts db)); [|reflexivity].
    now destruct (not_owner _ _).
  - unfold addComment. destruct (findById id (posts db)); [|reflexivity].
    match goal with
    | |- context [match findById ?i ?c with _ => _ end] =>
        destruct (findById i c)
    end; reflexivity.
  - unfold deleteComment. destruct (findById id (posts db)); [|reflexivity].
    destruct (comment_by_id _ _); [|reflexivity].
    now destruct (not_owner _ _).
  - unfold likePost. now destruct (findById id (posts db)).
Qed.

(** X15. Emails and usernames stay unique: when no two users share an
    email or a username, that is still so after any request ([register]
    is the one handler that adds a user, and only with an email and a
    username nobody has; no handler of the post controller touches the
    users); so an email then names at most one account. *)
Theorem users_stay_unique (E : Env) :
  (forall r db, users_unique db -> users_unique (handle E r db))
  /\ (forall r db, (forall body, r <> Register body) ->
                   users (handle E r db) = users db)
  /\ (forall db u u', users_unique db ->
                      In u (users db) -> In u' (users db) ->
                      email u = email u' \/ username u = username u' ->
                      u = u').
Proof.
  split; [|split].
  - intros r db Huniq.
    destruct r as [body| | | | | | | | |];
      try (unfold users_unique;
           rewrite handle_users by (intros body'; discriminate);
           exact Huniq).
    simpl. now apply register_users_unique.
  - exact (handle_users E).
  - intros db u u' [Hmail Hname] Hu Hu' [Heq|Heq].
    + exact (NoDup_map_same email (users db) u u' Hmail Hu Hu' Heq).
    + exact (NoDup_map_same username (users db) u u' Hname Hu Hu' Heq).
Qed.

Lemma users_stay_unique_witness :
  users_unique
    (handle sample_env
            (Register (mkRegisterBody "carol" "carol@example.com" "secret"))
            sample_db)
  /\ map username
         (users (handle sample_env
                        (Register (mkRegisterBody "carol" "carol@example.com"
                                                  "secret"))
                        sample_db))
     = ["alice"; "bob"; "carol"].
Proof.
  split; [|reflexivity].
  apply (proj1 (users_stay_unique sample_env)).
  split; simpl; repeat constructor; simpl; intuition discriminate.
Defined.

(** * Properties of the client *)

(** ** The tags of the post form *)

Lemma split_commas_cons (s : string) :
  exists t ts, Form.split_commas s = t :: ts.
Proof.
  induction s as [|c r (t & ts & IH)]; simpl.
  - now exists "", [].
  - destruct (Ascii.eqb c ","); [now eexists; eexists|].
    rewrite IH. now eexists; eexists.
Qed.

Lemma split_commas_no_comma (s : string) :
  Forall (fun t => Form.has_comma t = false) (Form.split_commas s).
Proof.
  induction s as [|c r IH]; simpl.
  - repeat constructor.
  - destruct (Ascii.eqb c ",") eqn:Hc; [now constructor|].
    destruct (Form.split_commas r) as [|t ts]; [repeat constructor; simpl|].
    + now rewrite Hc.
    + inversion IH as [|x l Hx Hl]; subst.
      constructor; [simpl; now rewrite Hc | exact Hl].
Qed.

Lemma skip_spaces_no_comma (s : string) :
  Form.has_comma s = false -> Form.has_comma (JS.skip_spaces s) = false.
Proof.
  induction s as [|c r IH]; simpl; [reflexivity|].
  intros H. apply orb_false_iff in H. destruct H as [Hc Hr].
  destruct (JS.is_space c); [now apply IH|].
  simpl. now rewrite Hc, Hr.
Qed.

Lemma trim_end_no_comma (s : string) :
  Form.has_comma s = false -> Form.has_comma (Form.trim_end s) = false.
Proof.
  induction s as [|c r IH]; simpl; [reflexivity|].
  intros H. apply orb_false_iff in H. destruct H as [Hc Hr].
  specialize (IH Hr).
  destruct (Form.trim_end r) as [|d t].
  - destruct (JS.is_space c); [reflexivity|]. simpl. now rewrite Hc.
  - simpl. rewrite Hc. exact IH.
Qed.

Lemma trim_end_idem (s : string) :
  Form.trim_end (Form.trim_end s) = Form.trim_end s.
Proof.
  induction s as [|c r IH]; simpl; [reflexivity|].
  destruct (Form.trim_end r) as [|d t] eqn:Hr.
  - destruct (JS.is_space c) eqn:Hc; simpl; [reflexivity|]. now rewrite Hc.
  - simpl in *. now rewrite IH.
Qed.

Lemma skip_spaces_head (s : string) :
  match JS.skip_spaces s with
  | EmptyString => True
  | String c _ => JS.is_space c = false
  end.
Proof.
  induction s as [|c r IH]; simpl; [exact I|].
  destruct (JS.is_space c) eqn:Hc; [exact IH | exact Hc].
Qed.

Lemma trim_end_head (c : ascii) (r : string) :
  JS.is_space c = false -> exists t, Form.trim_end (String c r) = String c t.
Proof.
  intros Hc. simpl. destruct (Form.trim_end r) as [|d t].
  - rewrite Hc. now eexists.
  - now eexists.
Qed.

Lemma trim_head (s : string) :
  match Form.trim s with
  | EmptyString => True
  | String c _ => JS.is_space c = false
  end.
Proof.
  unfold Form.trim. pose proof (skip_spaces_head s) as H.
  destruct (JS.skip_spaces s) as [|c r]; [exact I|].
  destruct (trim_end_head c r H) as [t ->]. exact H.
Qed.

Lemma trim_idem (s : string) : Form.trim (Form.trim s) = Form.trim s.
Proof.
  pose proof (trim_head s) as H. unfold Form.trim at 1.
  destruct (Form.trim s) as [|c t] eqn:Ht; [reflexivity|].
  simpl JS.skip_spaces. rewrite H. rewrite <- Ht.
  unfold Form.trim. apply trim_end_idem.
Qed.

Lemma trim_end_last (s r : string) (c : ascii) :
  Form.trim_end s = String.append r (String c EmptyString) ->
  JS.is_space c = false.
Proof.
  revert r. induction s as [|a s' IH]; simpl; intros r H.
  - destruct r; discriminate.
  - destruct (Form.trim_end s') as [|d t] eqn:Hs.
    + destruct (JS.is_space a) eqn:Ha; [destruct r; discriminate|].
      destruct r as [|b r']; simpl in H.
      * now injection H as <-.
      * injection H as _ H. destruct r'; discriminate.
    + destruct r as [|b r']; simpl in H; [discriminate|].
      injection H as _ H. now apply (IH r').
Qed.

Lemma blank_pieces (s : string) :
  blank s = true ->
  Forall (fun t => JS.skip_spaces t = EmptyString) (Form.split_commas s).
Proof.
  induction s as [|c r IH]; simpl; intros H.
  - repeat constructor.
  - apply andb_true_iff in H. destruct H as [Hc Hr]. specialize (IH Hr).
    destruct (Ascii.eqb c ",") eqn:Hcomma; [now constructor|].
    rewrite orb_false_r in Hc.
    destruct (Form.split_commas r) as [|t ts]; simpl.
    + repeat constructor. simpl. now rewrite Hc.
    + inversion IH as [|x l Hx Hl]; subst.
      constructor; [simpl; now rewrite Hc | exact Hl].
Qed.

(** X16. The tags the form submits are clean, whatever was typed: no tag
    is empty, none holds a comma, none begins or ends with a space (so
    trimming one again changes nothing); and a line of nothing but
    spaces and commas, the empty line included, gives no tag at all. *)
Theorem parse_tags_clean (s : string) :
  Forall (fun t =>
            Form.clean t
            /\ (forall c r, t = String c r -> JS.is_space c = false)
            /\ (forall r c, t = String.append r (String c EmptyString) ->
                            JS.is_space c = false))
         (Form.parse_tags s)
  /\ (blank s = true -> Form.parse_tags s = []).
Proof.
  split.
  - apply Forall_forall. intros t Ht. unfold Form.parse_tags in Ht.
    apply filter_In in Ht. destruct Ht as [Hin Hne].
    apply in_map_iff in Hin. destruct Hin as (piece & <- & Hpiece).
    pose proof (split_commas_no_comma s) as Hnc.
    rewrite Forall_forall in Hnc. specialize (Hnc piece Hpiece).
    repeat split.
    + intros Hempty. rewrite Hempty in Hne. discriminate.
    + unfold Form.trim. now apply trim_end_no_comma, skip_spaces_no_comma.
    + apply trim_idem.
    + intros c r Heq. pose proof (trim_head piece) as H.
      rewrite Heq in H. exact H.
    + intros r c Heq. unfold Form.trim in Heq.
      exact (trim_end_last _ r c Heq).
  - intros Hblank. unfold Form.parse_tags.
    pose proof (blank_pieces s Hblank) as Hall.
    induction Hall as [|t ts Ht Hts IH]; simpl; [reflexivity|].
    unfold Form.trim at 1. rewrite Ht. simpl. exact IH.
Qed.

Lemma split_commas_plain (t : string) :
  Form.has_comma t = false -> Form.split_commas t = [t].
Proof.
  induction t as [|c r IH]; simpl; [reflexivity|].
  intros H. apply orb_false_iff in H. destruct H as [Hc Hr].
  now rewrite Hc, (IH Hr).
Qed.

Lemma split_commas_app (t rest : string) :
  Form.has_comma t = false ->
  Form.split_commas (String.append t (String "," rest))
  = t :: Form.split_commas rest.
Proof.
  induction t as [|c r IH]; simpl; [reflexivity|].
  intros H. apply orb_false_iff in H. destruct H as [Hc Hr].
  now rewrite Hc, (IH Hr).
Qed.

Lemma trimmed_pieces_of_join (ts : list string) :
  Forall Form.clean ts -> ts <> [] ->
  map Form.trim (Form.split_commas (Form.join ts)) = ts
  /\ map Form.trim (Form.split_commas (String " " (Form.join ts))) = ts.
Proof.
  induction 1 as [|t ts' (Hne & Hnc & Htrim) Hts IH]; intros Hnil;
    [contradiction|].
  assert (Hsp : Form.trim (String " " t) = t) by exact Htrim.
  assert (Hnc' : Form.has_comma (String " " t) = false) by exact Hnc.
  destruct ts' as [|t2 ts''].
  - simpl Form.join. rewrite (split_commas_plain t Hnc).
    rewrite (split_commas_plain (String " " t) Hnc'). simpl map.
    now rewrite Htrim, Hsp.
  - destruct IH as [_ IH]; [discriminate|].
    change (Form.join (t :: t2 :: ts''))
      with (String.append t (String "," (String " " (Form.join (t2 :: ts''))))).
    change (String " " (String.append t ?x))
      with (String.append (String " " t) x).
    rewrite (split_commas_app t _ Hnc).
    rewrite (split_commas_app (String " " t) _ Hnc').
    rewrite !map_cons, IH, Htrim, Hsp. now split.
Qed.

(** X17. Editing a post keeps its tags: the form shows the tags joined by
    [", "], and submitting that line unchanged gives the same tags back,
    in the same order, as long as each tag is clean (not empty, without
    comma, without space at either end), as the tags this form produces
    are. *)
Theorem parse_tags_join (tags : list string) :
  Forall Form.clean tags ->
  Form.parse_tags (Form.join tags) = tags.
Proof.
  intros Hclean. unfold Form.parse_tags.
  destruct tags as [|t ts]; [reflexivity|].
  destruct (trimmed_pieces_of_join (t :: ts) Hclean) as [-> _];
    [discriminate|].
  apply filter_all. intros x Hx.
  rewrite Forall_forall in Hclean. destruct (Hclean x Hx) as (Hne & _).
  destruct x; [contradiction | reflexivity].
Qed.

Lemma parse_tags_join_witness :
  Form.join ["rocq"; "web dev"; "js"] = "rocq, web dev, js"
  /\ Form.parse_tags "rocq, web dev, js" = ["rocq"; "web dev"; "js"]
  /\ Form.parse_tags " rocq ,, web dev,js , " = ["rocq"; "web dev"; "js"].
Proof.
  split; [reflexivity|]. split; [|reflexivity].
  apply (parse_tags_join ["rocq"; "web dev"; "js"]).
  repeat constructor; discriminate.
Defined.

Lemma parse_tags_clean_witness :
  Form.parse_tags " , ,, " = []
  /\ Forall Form.clean (Form.parse_tags " rocq ,, web dev,js , ").
Proof.
  split.
  - exact (proj2 (parse_tags_clean " , ,, ") eq_refl).
  - eapply Forall_impl;
      [|exact (proj1 (parse_tags_clean " rocq ,, web dev,js , "))].
    simpl. intros t H. exact (proj1 H).
Defined.

(** ** From the list view to the server *)

Lemma read_digits_step (c : ascii) (k : Z) (acc : option Z) (s : string) :
  JS.digit c = Some k ->
  JS.read_digits acc (String c s)
  = JS.read_digits
      (Some (10 * match acc with Some a => a | None => 0 end + k)%Z) s.
Proof.
  intros H. simpl JS.read_digits. now rewrite H.
Qed.

Lemma read_digits_stop (acc : option Z) (rest : string) :
  match rest with
  | EmptyString => True
  | String c _ => JS.digit c = None
  end ->
  JS.read_digits acc rest = acc.
Proof.
  destruct rest as [|c r]; simpl; [reflexivity|]. now intros ->.
Qed.

(** Reads the digit at the head of the text. *)
Ltac read_one_digit :=
  first [ rewrite (read_digits_step "0"%char 0%Z) by reflexivity
        | rewrite (read_digits_step "1"%char 1%Z) by reflexivity
        | rewrite (read_digits_step "2"%char 2%Z) by reflexivity
        | rewrite (read_digits_step "3"%char 3%Z) by reflexivity
        | rewrite (read_digits_step "4"%char 4%Z) by reflexivity
        | rewrite (read_digits_step "5"%char 5%Z) by reflexivity
        | rewrite (read_digits_step "6"%char 6%Z) by reflexivity
        | rewrite (read_digits_step "7"%char 7%Z) by reflexivity
        | rewrite (read_digits_step "8"%char 8%Z) by reflexivity
        | rewrite (read_digits_step "9"%char 9%Z) by reflexivity ].

Lemma read_digits_uint (d : Decimal.uint) (a : nat) (rest : string) :
  JS.read_digits (Some (Z.of_nat a))
                 (String.append (NilEmpty.string_of_uint d) rest)
  = JS.read_digits (Some (Z.of_nat (Nat.of_uint_acc d a))) rest.
Proof.
  revert a.
  induction d as [|d IH|d IH|d IH|d IH|d IH|d IH|d IH|d IH|d IH|d IH];
    intros a; [reflexivity|..];
    cbn [NilEmpty.string_of_uint String.append Nat.of_uint_acc];
    rewrite <- IH;
    read_one_digit;
    f_equal; f_equal; rewrite Nat.tail_mul_spec; lia.
Qed.

Lemma to_uint_cons (n : nat) : Nat.to_uint n <> Decimal.Nil.
Proof.
  pose proof (Unsigned.to_of (Nat.to_uint n)) as H.
  rewrite Unsigned.of_to in H. rewrite H.
  unfold Decimal.unorm. now destruct (Decimal.nzhead (Nat.to_uint n)).
Qed.

Lemma parseInt_digit_head (c : ascii) (k : Z) (s : string) :
  JS.digit c = Some k ->
  JS.parseInt (Some (String c s)) = JS.read_digits None (String c s).
Proof.
  destruct c as [[] [] [] [] [] [] [] []]; intros H; cbv in H;
    try discriminate H; reflexivity.
Qed.

Lemma parseInt_digits (d : Decimal.uint) (rest : string) :
  d <> Decimal.Nil ->
  JS.parseInt (Some (String.append (NilEmpty.string_of_uint d) rest))
  = JS.read_digits (Some (Z.of_nat (Nat.of_uint d))) rest.
Proof.
  intros Hd. unfold Nat.of_uint.
  destruct d as [|d|d|d|d|d|d|d|d|d|d]; [contradiction|..];
    cbn [NilEmpty.string_of_uint String.append Nat.of_uint_acc Nat.tail_mul
         Nat.tail_addmul];
    rewrite <- read_digits_uint;
    [ rewrite (parseInt_digit_head "0"%char 0%Z) by reflexivity
    | rewrite (parseInt_digit_head "1"%char 1%Z) by reflexivity
    | rewrite (parseInt_digit_head "2"%char 2%Z) by reflexivity
    | rewrite (parseInt_digit_head "3"%char 3%Z) by reflexivity
    | rewrite (parseInt_digit_head "4"%char 4%Z) by reflexivity
    | rewrite (parseInt_digit_head "5"%char 5%Z) by reflexivity
    | rewrite (parseInt_digit_head "6"%char 6%Z) by reflexivity
    | rewrite (parseInt_digit_head "7"%char 7%Z) by reflexivity
    | rewrite (parseInt_digit_head "8"%char 8%Z) by reflexivity
    | rewrite (parseInt_digit_head "9"%char 9%Z) by reflexivity ];
    read_one_digit; reflexivity.
Qed.

Lemma parseInt_of_number (n : nat) (rest : string) :
  match rest with
  | EmptyString => True
  | String c _ => JS.digit c = None
  end ->
  JS.parseInt (Some (String.append (ListView.number_to_string n) rest))
  = Some (Z.of_nat n).
Proof.
  intros Hrest. unfold ListView.number_to_string.
  rewrite (parseInt_digits _ rest (to_uint_cons n)).
  rewrite Unsigned.of_to. now apply read_digits_stop.
Qed.

Lemma append_empty (s : string) : String.append s EmptyString = s.
Proof.
  induction s as [|c r IH]; simpl; [reflexivity | now rewrite IH].
Qed.

Lemma fetch_query_reading (st : ListView.State) :
  let q := ListView.fetch_query st in
  page_of q = (if ListView.currentPage st =? 0 then 1%Z
               else Z.of_nat (ListView.currentPage st))
  /\ limit_of q = 6%Z
  /\ (1 <= ListView.currentPage st ->
      skip_of q = Z.of_nat (6 * (ListView.currentPage st - 1))).
Proof.
  intros q.
  assert (Hpage : page_of q = (if ListView.currentPage st =? 0 then 1%Z
                               else Z.of_nat (ListView.currentPage st))).
  { assert (Hq : q_page q
                 = Some (ListView.number_to_string (ListView.currentPage st)))
      by reflexivity.
    unfold page_of. rewrite Hq.
    pose proof (parseInt_of_number (ListView.currentPage st) EmptyString I) as H.
    rewrite append_empty in H. rewrite H.
    destruct (ListView.currentPage st); reflexivity. }
  assert (Hlimit : limit_of q = 6%Z) by reflexivity.
  split; [exact Hpage|]. split; [exact Hlimit|].
  intros Hn. unfold skip_of. rewrite Hpage, Hlimit.
  destruct (ListView.currentPage st); [lia|]. simpl Nat.eqb. cbv iota. lia.
Qed.



(** X19. What the list view shows: for a page of at least 1 and a search
    the database accepts, [fetchPosts] stores at most six posts, all of
    them published (the view never sends a status) and stored in the
    database, newest first, and the number of pages ceil(total / 6); the
    pagination control is rendered exactly when more than six posts match.
    When the request fails, the view keeps what it showed. *)
Theorem listView_shows_published
        (E : Env) (st : ListView.State) (db : Db) (shown : list PostView * Z) :
  (forall sel,
     1 <= ListView.currentPage st ->
     selects E (build_query (ListView.fetch_query st)) = Some sel ->
     let n := List.length (filter sel (posts db)) in
     exists data,
       ListView.fetchPosts E st db shown = (data, JS.ceil_div (Z.of_nat n) 6)
       /\ List.length data <= 6
       /\ Forall (fun v => status (doc v) = "published"
                           /\ In (doc v) (posts db)) data
       /\ StronglySorted newer_first (map doc data)
       /\ (ListView.shows_pagination
             (ListView.fetchPosts E st db shown) = true <-> 6 < n))
  /\ (selects E (build_query (ListView.fetch_query st)) = None ->
      ListView.fetchPosts E st db shown = shown).
Proof.
  split.
  - intros sel Hpage Hsel n.
    destruct (fetch_query_reading st) as (_ & Hlimit & Hskip).
    specialize (Hskip Hpage).
    set (q := ListView.fetch_query st) in *.
    assert (Hfetch : ListView.fetchPosts E st db shown
                     = (map (view db ["username"; "email"] None)
                            (page_slice q sel (posts db)),
                        JS.ceil_div (Z.of_nat n) 6)).
    { unfold ListView.fetchPosts. fold q.
      rewrite (getPosts_answer E q db sel Hsel) by lia.
      unfold listing. simpl. now rewrite Hlimit. }
    eexists. split; [exact Hfetch|]. split; [|split; [|split]].
    + rewrite length_map, page_slice_length, Hlimit.
      exact (Nat.le_min_l 6 _).
    + apply Forall_forall. intros v Hv. apply in_map_iff in Hv.
      destruct Hv as (p & <- & Hp). simpl.
      apply page_slice_In in Hp. destruct Hp as [Hin Hp].
      split; [|exact Hin].
      exact (selects_status E (build_query q) sel p Hsel Hp).
    + rewrite docs_of_views. unfold page_slice.
      apply firstn_sorted, skipn_sorted, sort_desc_sorted.
    + rewrite Hfetch. unfold ListView.shows_pagination. simpl.
      pose proof (ceil_div_bounds (Z.of_nat n) 6 ltac:(lia)) as Hb.
      rewrite Z.ltb_lt. lia.
  - intros Hnone. unfold ListView.fetchPosts, getPosts, countDocuments.
    now rewrite Hnone.
Qed.

(** The view on page 3 of the thirteen published posts. *)
Lemma listView_shows_published_witness :
  exists data,
    ListView.fetchPosts sample_env (ListView.mkState 3 "" None) thirteen_db
                        ([], 1%Z)
    = (data, 3%Z)
    /\ map p_id (map doc data) = [1]
    /\ ListView.shows_pagination (data, 3%Z) = true.
Proof.
  destruct (proj1 (listView_shows_published
                     sample_env (ListView.mkState 3 "" None) thirteen_db
                     ([], 1%Z))
                  (fun p => true && String.eqb (status p) "published")
                  ltac:(simpl; lia) eq_refl)
    as (data & Hfetch & _).
  exists data. split; [exact Hfetch|].
  vm_compute in Hfetch. injection Hfetch as <-. split; reflexivity.
Defined.

(** * More on listing and fetching *)

Lemma selects_category (E : Env) (f : Filter) (sel : Post -> bool)
      (p : Post) (c : nat) :
  selects E f = Some sel -> f_category f = Some c -> sel p = true ->
  category p = c.
Proof.
  unfold selects. intros H Hc Hp. rewrite Hc in H.
  destruct (f_regex f) as [pat|].
  - destruct (Regex.matcher (regex_engine E) pat) as [m|]; simpl in H;
      [|discriminate].
    injection H as <-.
    apply andb_true_iff in Hp. destruct Hp as [_ Hp].
    apply andb_true_iff in Hp. destruct Hp as [Hp _].
    now apply Nat.eqb_eq.
  - injection H as <-.
    apply andb_true_iff in Hp. destruct Hp as [Hp _].
    now apply Nat.eqb_eq.
Qed.

(** X20. The category filter: with a category parameter every listed post
    has that category (besides the status asked for, or [published]), and
    without a search the total is the number of stored posts of that
    category and status; the filters of a listing combine, none replaces
    another. *)
Theorem getPosts_category_filter
        (E : Env) (q : Query) (db : Db) (sel : Post -> bool) (c : nat) :
  selects E (build_query q) = Some sel ->
  (0 <= skip_of q)%Z ->
  q_category q = Some c ->
  exists n pg data,
    getPosts E q db = (Json 200 (PList (List.length data) n pg data), db)
    /\ Forall (fun v => category (doc v) = c
                        /\ status (doc v) = f_status (build_query q)) data
    /\ (JS.truthy (q_search q) = false ->
        n = List.length
              (filter (fun p => (category p =? c)
                                && String.eqb (status p)
                                              (f_status (build_query q)))
                      (posts db))).
Proof.
  intros Hsel Hskip Hcat.
  exists (List.length (filter sel (posts db))).
  eexists. exists (map (view db ["username"; "email"] None)
                       (page_slice q sel (posts db))).
  split.
  { rewrite (getPosts_answer E q db sel Hsel Hskip). unfold listing.
    now rewrite length_map. }
  split.
  - apply Forall_forall. intros v Hv. apply in_map_iff in Hv.
    destruct Hv as (p & <- & Hp). simpl.
    apply page_slice_In in Hp. destruct Hp as [_ Hp]. split.
    + exact (selects_category E (build_query q) sel p c Hsel Hcat Hp).
    + exact (selects_status E (build_query q) sel p Hsel Hp).
  - intros Hsearch. f_equal. apply filter_ext. intros p.
    unfold selects in Hsel. unfold build_query in Hsel at 1 2. simpl in Hsel.
    rewrite Hsearch, Hcat in Hsel. now injection Hsel as <-.
Qed.

Lemma getPosts_category_filter_witness :
  exists n pg data,
    getPosts sample_env (mkQuery None None None (Some 10) (Some "draft"))
             thirteen_db
    = (Json 200 (PList (List.length data) n pg data), thirteen_db)
    /\ Forall (fun v => category (doc v) = 10 /\ status (doc v) = "draft") data
    /\ n = 2.
Proof.
  destruct (getPosts_category_filter
              sample_env (mkQuery None None None (Some 10) (Some "draft"))
              thirteen_db
              (fun p => (category p =? 10) && String.eqb (status p) "draft")
              10 eq_refl ltac:(vm_compute; discriminate) eq_refl)
    as (n & pg & data & Hget & Hall & Hn).
  exists n, pg, data. split; [exact Hget|]. split; [exact Hall|].
  rewrite (Hn eq_refl). reflexivity.
Defined.

(** X21. The default listing: a query without page and limit (or with
    values [parseInt] reads no number or 0 from) is answered with page 1
    of size 10: the ten newest selected posts, no previous page, and a
    next page exactly when more than ten posts match. *)
Theorem getPosts_defaults (E : Env) (q : Query) (db : Db) (sel : Post -> bool) :
  selects E (build_query q) = Some sel ->
  JS.parseInt (q_page q) = None \/ JS.parseInt (q_page q) = Some 0%Z ->
  JS.parseInt (q_limit q) = None \/ JS.parseInt (q_limit q) = Some 0%Z ->
  let n := List.length (filter sel (posts db)) in
  exists pg data,
    getPosts E q db = (Json 200 (PList (List.length data) n pg data), db)
    /\ map doc data = firstn 10 (sort_desc (filter sel (posts db)))
    /\ current pg = 1%Z
    /\ hasPrev pg = false
    /\ (hasNext pg = true <-> 10 < n).
Proof.
  intros Hsel Hpage Hlimit n.
  assert (Hp : page_of q = 1%Z).
  { unfold page_of. now destruct Hpage as [-> | ->]. }
  assert (Hl : limit_of q = 10%Z).
  { unfold limit_of. now destruct Hlimit as [-> | ->]. }
  assert (Hskip : skip_of q = 0%Z) by (unfold skip_of; rewrite Hp; lia).
  eexists. exists (map (view db ["username"; "email"] None)
                       (page_slice q sel (posts db))).
  split.
  { rewrite (getPosts_answer E q db sel Hsel) by lia. unfold listing.
    now rewrite length_map. }
  split.
  { rewrite docs_of_views. unfold page_slice. now rewrite Hl, Hskip. }
  simpl. rewrite Hp, Hl. repeat split.
  - intros H. apply Z.ltb_lt in H.
    pose proof (ceil_div_bounds (Z.of_nat n) 10 ltac:(lia)) as Hb.
    fold n in H. lia.
  - intros H. apply Z.ltb_lt.
    pose proof (ceil_div_bounds (Z.of_nat n) 10 ltac:(lia)) as Hb.
    fold n. lia.
Qed.

Lemma getPosts_defaults_witness :
  exists pg data,
    getPosts sample_env (mkQuery (Some "first") (Some "0") None None None)
             thirteen_db
    = (Json 200 (PList (List.length data) 13 pg data), thirteen_db)
    /\ map p_id (map doc data) = [13; 12; 11; 10; 9; 8; 7; 6; 5; 4]
    /\ hasNext pg = true.
Proof.
  destruct (getPosts_defaults
              sample_env (mkQuery (Some "first") (Some "0") None None None)
              thirteen_db
              (fun p => true && String.eqb (status p) "published")
              eq_refl (or_introl eq_refl) (or_intror eq_refl))
    as (pg & data & Hget & Hdocs & _ & _ & Hnext).
  exists pg, data. split; [exact Hget|]. split.
  - rewrite Hdocs. reflexivity.
  - apply Hnext. vm_compute. lia.
Defined.

Lemma getPost_found (id : nat) (db : Db) (post : Post) :
  findById id (posts db) = Some post ->
  getPost id db
  = (Json 200 (PPost (view db ["username"; "email"; "avatar"]
                           (Some ["username"; "avatar"])
                           (set_views (views post + 1) post))),
     with_posts (save (set_views (views post + 1) post) (posts db)) db)
  /\ findById id (posts (snd (getPost id db)))
     = Some (set_views (views post + 1) post).
Proof.
  intros Hf. unfold getPost. rewrite Hf. split; [reflexivity|]. simpl.
  apply (findById_save_same id (posts db) post); [exact Hf|].
  simpl. exact (findById_id _ _ _ Hf).
Qed.

(** X22. Views count fetches: after [k] successful [getPost] of a post in a
    row its views are [k] higher and nothing else of it has changed, and
    every other post is found as before; the fetch after those answers
    with [k + 1] more views than at the start. *)
Theorem getPost_repeated (id : nat) (k : nat) (db : Db) (post : Post) :
  findById id (posts db) = Some post ->
  let db' := Nat.iter k (fun d => snd (getPost id d)) db in
  findById id (posts db') = Some (set_views (views post + k) post)
  /\ (forall j, j <> id -> findById j (posts db') = findById j (posts db))
  /\ exists v, fst (getPost id db') = Json 200 (PPost v)
               /\ doc v = set_views (views post + k + 1) post.
Proof.
  intros Hf db'.
  assert (Hiter : findById id (posts db')
                  = Some (set_views (views post + k) post)
                  /\ forall j, j <> id ->
                               findById j (posts db') = findById j (posts db)).
  { unfold db'. clear db'. induction k as [|k [IH1 IH2]]; simpl.
    - split; [|reflexivity]. rewrite Hf. f_equal.
      rewrite Nat.add_0_r. now destruct post.
    - destruct (getPost_found id _ _ IH1) as [Hget Hfound]. split.
      + rewrite Hfound. f_equal. simpl.
        replace (views post + k + 1) with (views post + S k) by lia.
        reflexivity.
      + intros j Hj. rewrite Hget. simpl.
        rewrite findById_save_other by (simpl; rewrite (findById_id _ _ _ Hf);
                                        exact Hj).
        now apply IH2. }
  destruct Hiter as [H1 H2]. split; [exact H1|]. split; [exact H2|].
  destruct (getPost_found id db' _ H1) as [Hget _].
  rewrite Hget. simpl. eexists. split; reflexivity.
Qed.

Lemma getPost_repeated_witness :
  map views (posts (Nat.iter 3 (fun d => snd (getPost 100 d)) liked_db)) = [3]
  /\ findById 100 (posts (Nat.iter 3 (fun d => snd (getPost 100 d)) liked_db))
     = Some (mkPost 100 "Hello" "First post" "" "" 1 10 [] "published" 3 []
                    [2] 5).
Proof.
  split; [reflexivity|].
  exact (proj1 (getPost_repeated
                  100 3 liked_db
                  (mkPost 100 "Hello" "First post" "" "" 1 10 [] "published" 0
                          [] [2] 5)
                  eq_refl)).
Defined.

(** ** The pages of a listing, when creation times differ *)

Lemma sorted_unique (l1 l2 : list Post) :
  NoDup (map createdAt l1) ->
  Permutation l1 l2 ->
  StronglySorted newer_first l1 -> StronglySorted newer_first l2 ->
  l1 = l2.
Proof.
  revert l2. induction l1 as [|a r1 IH]; intros l2 Hnd Hperm Hs1 Hs2.
  - apply Permutation_nil in Hperm. now subst.
  - destruct l2 as [|b r2].
    { apply Permutation_sym, Permutation_nil in Hperm. discriminate. }
    apply StronglySorted_inv in Hs1. destruct Hs1 as [Hs1 Ha].
    apply StronglySorted_inv in Hs2. destruct Hs2 as [Hs2 Hb].
    rewrite Forall_forall in Ha, Hb.
    assert (Hab : a = b).
    { assert (Hina : In a (b :: r2))
        by (apply (Permutation_in _ Hperm); now left).
      assert (Hinb : In b (a :: r1))
        by (apply (Permutation_in _ (Permutation_sym Hperm)); now left).
      destruct Hina as [Heq|Hina]; [now symmetry|].
      destruct Hinb as [Heq|Hinb]; [exact Heq|].
      apply (NoDup_map_same createdAt (a :: r1) a b Hnd);
        [now left | now right |].
      pose proof (Ha b Hinb) as H1. pose proof (Hb a Hina) as H2.
      unfold newer_first in H1, H2. lia. }
    subst b. f_equal.
    apply IH; [now inversion Hnd | | exact Hs1 | exact Hs2].
    exact (Permutation_cons_inv Hperm).
Qed.

(** X12. When the selected posts have pairwise different creation times,
    the pages are consecutive slices of their newest-first order: for a
    positive limit L and a page P of at least 1, the post at position i of
    the page (counting from 0, below L) is the post at position
    (P - 1) * L + i of the selected posts arranged newest first, and the
    page has no position L or higher. *)
Theorem getPosts_page_positions
        (E : Env) (q : Query) (db : Db) (sel : Post -> bool)
        (sorted : list Post) :
  selects E (build_query q) = Some sel ->
  (0 < limit_of q)%Z ->
  (1 <= page_of q)%Z ->
  NoDup (map createdAt (filter sel (posts db))) ->
  Permutation sorted (filter sel (posts db)) ->
  StronglySorted newer_first sorted ->
  let L := Z.to_nat (limit_of q) in
  let P := Z.to_nat (page_of q) in
  exists n pg data,
    getPosts E q db = (Json 200 (PList (List.length data) n pg data), db)
    /\ forall i,
        nth_error (map doc data) i
        = if i <? L then nth_error sorted ((P - 1) * L + i) else None.
Proof.
  intros Hsel Hlim Hpage Hnd Hperm Hsorted L P.
  assert (Hskip : (0 <= skip_of q)%Z) by (unfold skip_of; nia).
  assert (Horder : sort_desc (filter sel (posts db)) = sorted).
  { apply sorted_unique.
    - eapply Permutation_NoDup; [|exact Hnd].
      apply Permutation_map, Permutation_sym, sort_desc_perm.
    - rewrite sort_desc_perm. now symmetry.
    - apply sort_desc_sorted.
    - exact Hsorted. }
  exists (List.length (filter sel (posts db))).
  eexists. exists (map (view db ["username"; "email"] None)
                       (page_slice q sel (posts db))).
  split.
  { rewrite (getPosts_answer E q db sel Hsel Hskip). unfold listing.
    now rewrite length_map. }
  intros i. rewrite docs_of_views. unfold page_slice.
  rewrite nth_error_firstn, nth_error_skipn, Horder.
  replace (Z.to_nat (Z.abs (limit_of q))) with L by (unfold L; lia).
  replace (Z.to_nat (skip_of q)) with ((P - 1) * L) by (unfold skip_of, P, L; nia).
  reflexivity.
Qed.

Lemma getPosts_page_positions_witness :
  exists n pg data,
    getPosts sample_env (page_query "2") thirteen_db
    = (Json 200 (PList (List.length data) n pg data), thirteen_db)
    /\ map p_id (map doc data) = [7; 6; 5; 4; 3; 2].
Proof.
  destruct (getPosts_page_positions
              sample_env (page_query "2") thirteen_db
              (fun p => true && String.eqb (status p) "published")
              (sort_desc (filter (fun p => true && String.eqb (status p) "published")
                                 (posts thirteen_db)))
              eq_refl eq_refl ltac:(vm_compute; discriminate))
    as (n & pg & data & Hget & _).
  - change (NoDup (seq 1 13)). apply seq_NoDup.
  - apply sort_desc_perm.
  - apply sort_desc_sorted.
  - exists n, pg, data. split; [exact Hget|].
    vm_compute in Hget. injection Hget as _ _ _ <-. reflexivity.
Defined.
